(** * Allocator adapters over [lua_Alloc]  (libs/glm-binding/allocator.hpp)

    A shallow embedding of the two STL allocators of the header,
    [LuaCrtAllocator<T>] (caches the host's allocation function) and
    [InternalLuaCrtAllocator<T>] (keeps the address of the host's
    [global_State]), and the properties of their [allocate], [deallocate],
    [Validate] and comparison operators.

    Conventions of the embedding:
    - a pointer (data or function) is its address, a [Z]; [nullptr] is [0];
    - a [size_t] is a [Z] in [0, 2^size_bits); its multiplication wraps;
    - a member function is a computation over the object it is called on
      ([self]) and the rest of the program state ([env]); it ends by
      returning, by throwing, in [std::terminate], or in undefined behaviour;
    - every call through a [lua_Alloc] pointer is appended to [calls]. *)

From Stdlib Require Import ZArith List Lia Bool.
From stdpp Require Import base gmap.
Import ListNotations.

Local Open Scope Z_scope.

(** ** Build configuration and element types *)

(** What the preprocessor and the platform fix: the width of [size_t], the
    value of [__cplusplus], and whether [LUA_ALLOC_DEBUG] is defined. *)
Record config : Type := Config {
  size_bits : Z;
  cplusplus : Z;
  LUA_ALLOC_DEBUG : bool
}.

(** [std::numeric_limits<std::size_t>::max()] *)
Definition SIZE_MAX (cfg : config) : Z := 2 ^ size_bits cfg - 1.

(** [a * b] on [size_t] operands. *)
Definition size_mul (cfg : config) (a b : Z) : Z := (a * b) mod 2 ^ size_bits cfg.

(** [#if __cplusplus >= 201103L]: [LUA_ALLOC_NOEXCEPT] is [noexcept]. *)
Definition LUA_ALLOC_NOEXCEPT (cfg : config) : bool := 201103 <=? cplusplus cfg.

(** The template parameter [T]; the allocators use nothing of it but
    [sizeof(T)]. *)
Record ctype : Type := CType { sizeof : Z }.

Definition nullptr : Z := 0.

(** ** The host *)

(** Modelled from the spec: [global_State] is declared in lstate.h, which is
    not among the sources; it is the spec's "live host state record", of
    which the allocators read the callback and the opaque pointer. *)
Record global_State : Type := GlobalState {
  frealloc : Z;  (* lua_Alloc: address of the function to reallocate memory *)
  ud : Z         (* auxiliary data to frealloc *)
}.

(** Modelled from the spec: [lua_State] and the macro [G] are declared in
    lstate.h; a "host handle", from which construction "resolves the live
    state record's address". *)
Record lua_State : Type := LuaState { l_G : Z }.

(** Modelled from the spec: the macro [G(L)] of lstate.h, the address of the
    state record of the handle [L]. *)
Definition G (L : lua_State) : Z := l_G L.

(** One call [fn(opaque, blk, osize, nsize)] through a [lua_Alloc] pointer. *)
Record alloc_call : Type := AllocCall {
  fn : Z;
  opaque : Z;
  blk : Z;
  osize : Z;
  nsize : Z
}.

(** One line written by [report]: the tag, the byte count, the address. *)
Record report_line : Type := ReportLine {
  is_alloc : bool;
  bytes : Z;
  addr : Z
}.

Inductive exn : Type := bad_alloc.

Inductive undefined : Type :=
| NullCall      (* a call through a null function pointer *)
| WildPointer.  (* a read through a pointer to no live object *)

(** How a computation ends. *)
Inductive outcome (A : Type) : Type :=
| Ret (a : A)
| Raise (e : exn)
| Terminated
| Undef (u : undefined).

Arguments Ret {A} a.
Arguments Raise {A} e.
Arguments Terminated {A}.
Arguments Undef {A} u.

Section Model.

(** The host's own memory state, on which its allocation functions act. *)
Context {Mem : Type}.

(** Modelled from the spec: [lua_Alloc] is declared in lua.h; the spec's
    HostCallback, "a function value taking (opaque-state pointer,
    existing-block pointer-or-null, old size in bytes, new size in bytes)
    and returning a pointer-or-null".  It is a C function: it returns (it
    throws nothing), and it may change the host's memory. *)
Definition lua_Alloc : Type := Z -> Z -> Z -> Z -> Mem -> Z * Mem.

(** The function found at each non-null function address. *)
Variable code : Z -> lua_Alloc.
Variable cfg : config.

Record world : Type := World {
  globals : gmap Z global_State;  (* the live global_State records, by address *)
  heap : Mem;
  calls : list alloc_call;
  cout : list report_line
}.

(** The object a member function runs on, and everything else. *)
Record frame (O : Type) : Type := Frame { self : O; env : world }.
Arguments Frame {O} self env.
Arguments self {O} f.
Arguments env {O} f.

Definition M (O A : Type) : Type := frame O -> outcome A * frame O.

Definition ret {O A} (a : A) : M O A := fun s => (Ret a, s).

Definition bind {O A B} (m : M O A) (k : A -> M O B) : M O B :=
  fun s =>
    match m s with
    | (Ret a, s') => k a s'
    | (Raise e, s') => (Raise e, s')
    | (Terminated, s') => (Terminated, s')
    | (Undef u, s') => (Undef u, s')
    end.

Definition throw {O A} (e : exn) : M O A := fun s => (Raise e, s).

(** [try { m } catch (...) { h }] *)
Definition try_catch_all {O A} (m h : M O A) : M O A :=
  fun s =>
    match m s with
    | (Raise _, s') => h s'
    | r => r
    end.

(** A function body under an exception specification: an exception that
    leaves a [noexcept] function calls [std::terminate]. *)
Definition noexcept_body {O A} (is_noexcept : bool) (m : M O A) : M O A :=
  fun s =>
    match m s with
    | (Raise e, s') => if is_noexcept then (Terminated, s') else (Raise e, s')
    | r => r
    end.

Definition this {O} : M O O := fun s => (Ret (self s), s).

Definition assign {O} (f : O -> O) : M O unit :=
  fun s => (Ret tt, Frame (f (self s)) (env s)).

Definition record_call (c : alloc_call) (h : Mem) (w : world) : world :=
  World (globals w) h (calls w ++ [c]) (cout w).

Definition record_report (r : report_line) (w : world) : world :=
  World (globals w) (heap w) (calls w) (cout w ++ [r]).

(** What the call [f(u, b, os, ns)] returns in the world [w], and the
    world it leaves. *)
Definition answer (f u b os ns : Z) (w : world) : Z :=
  fst (code f u b os ns (heap w)).

Definition after_call (f u b os ns : Z) (w : world) : world :=
  record_call (AllocCall f u b os ns) (snd (code f u b os ns (heap w))) w.

(** [f(u, b, os, ns)] for [f] of type [lua_Alloc]. *)
Definition call_alloc {O} (f u b os ns : Z) : M O Z :=
  fun s =>
    if f =? nullptr then (Undef NullCall, s)
    else (Ret (answer f u b os ns (env s)),
          Frame (self s) (after_call f u b os ns (env s))).

(** [*g] for [g] of type [global_State *]. *)
Definition deref {O} (g : Z) : M O global_State :=
  fun s =>
    match globals (env s) !! g with
    | Some r => (Ret r, s)
    | None => (Undef WildPointer, s)
    end.

(** The world after [report(p, n, alloc)], which is compiled in under
    [LUA_ALLOC_DEBUG] only. *)
Definition reported (T : ctype) (p n : Z) (alloc : bool) (w : world) : world :=
  if LUA_ALLOC_DEBUG cfg then
    record_report (ReportLine alloc (size_mul cfg (sizeof T) n) p) w
  else w.

Definition report {O} (T : ctype) (p n : Z) (alloc : bool) : M O unit :=
  fun s => (Ret tt, Frame (self s) (reported T p n alloc (env s))).

(** Modelled from the spec: [lua_getallocf] (lapi.c) is not among the
    sources; by the spec it is the accessor "taking an opaque handle and
    yielding the current callback and opaque pointer pair".  The pair is
    read from the handle's [global_State]; the second component is what
    the function stores through its [void **ud] argument. *)
Definition lua_getallocf {O} (L : lua_State) : M O (Z * Z) :=
  bind (deref (G L)) (fun g => ret (frealloc g, ud g)).

End Model.

Arguments Frame {Mem O} self env.
Arguments self {Mem O} f.
Arguments env {Mem O} f.
Arguments World {Mem} globals heap calls cout.
Arguments lua_Alloc : clear implicits.
Arguments world : clear implicits.
Arguments frame : clear implicits.
Arguments M : clear implicits.

Declare Scope alloc_scope.
Delimit Scope alloc_scope with alloc.
Notation "x <- m ; k" := (bind m (fun x => k))
  (at level 20, m at level 100, k at level 200, only parsing) : alloc_scope.

Local Open Scope alloc_scope.

(** ** The caching allocator *)

(** [template<class T> struct LuaCrtAllocator] *)
Record LuaCrtAllocator (T : ctype) : Type := MkLuaCrtAllocator {
  l_alloc : Z;  (* a cache of the memory-allocation function used by Lua states *)
  l_ud : Z      (* an (optional) opaque pointer used by the allocator *)
}.
Arguments MkLuaCrtAllocator {T} l_alloc l_ud.
Arguments l_alloc {T} l.
Arguments l_ud {T} l.

(** [template<class T> struct InternalLuaCrtAllocator] *)
Record InternalLuaCrtAllocator (T : ctype) : Type := MkInternalLuaCrtAllocator {
  _G : Z  (* global_State * *)
}.
Arguments MkInternalLuaCrtAllocator {T} _G.
Arguments _G {T} i.

Module Caching.
Section Methods.
Context {Mem : Type}.
Variable code : Z -> lua_Alloc Mem.
Variable cfg : config.
Variable T : ctype.

Definition set_l_alloc (f : Z) (a : LuaCrtAllocator T) : LuaCrtAllocator T :=
  MkLuaCrtAllocator f (l_ud a).

Definition set_l_ud (u : Z) (a : LuaCrtAllocator T) : LuaCrtAllocator T :=
  MkLuaCrtAllocator (l_alloc a) u.

(** [LuaCrtAllocator() = default]: the member initialisers. *)
Definition init : LuaCrtAllocator T := MkLuaCrtAllocator nullptr nullptr.

(** [l_alloc = lua_getallocf(L, &l_ud);] *)
Definition resolve (L : lua_State) : M Mem (LuaCrtAllocator T) unit :=
  r <- lua_getallocf L ;
  _ <- assign (set_l_ud (snd r)) ;
  assign (set_l_alloc (fst r)).

(** [Validate(L)]; the reference returned is to the object itself. *)
Definition Validate (L : lua_State) : M Mem (LuaCrtAllocator T) (LuaCrtAllocator T) :=
  _ <- resolve L ;
  this.

(** [LuaCrtAllocator(lua_State *L)], run on a fresh object: the object
    constructed and the state after. *)
Definition construct (L : lua_State) (w : world Mem)
  : outcome (LuaCrtAllocator T) * world Mem :=
  let '(r, s) := bind (resolve L) (fun _ => this) (Frame init w) in (r, env s).

Definition realloc (blk os ns : Z) : M Mem (LuaCrtAllocator T) Z :=
  a <- this ;
  if l_alloc a =? nullptr then throw bad_alloc
  else call_alloc code (l_alloc a) (l_ud a) blk os ns.

(** The [try] block of [allocate]: [Some p] when it returns [p] from the
    function, [None] when control leaves the block at its end. *)
Definition allocate_try (n : Z) : M Mem (LuaCrtAllocator T) (option Z) :=
  if n <=? SIZE_MAX cfg / sizeof T then
    p <- realloc nullptr 0 (size_mul cfg n (sizeof T)) ;
    if p =? nullptr then ret None
    else
      _ <- report cfg T p n true ;
      ret (Some p)
  else ret None.

Definition allocate (n : Z) : M Mem (LuaCrtAllocator T) Z :=
  r <- try_catch_all (allocate_try n) (ret None) ;
  match r with
  | Some p => ret p
  | None => throw bad_alloc
  end.

Definition deallocate (p n : Z) : M Mem (LuaCrtAllocator T) unit :=
  noexcept_body (LUA_ALLOC_NOEXCEPT cfg)
    (_ <- report cfg T p n false ;
     _ <- realloc p n 0 ;
     ret tt).

End Methods.

(** The converting constructor from [LuaCrtAllocator<U>]. *)
Definition rebind {U T : ctype} (o : LuaCrtAllocator U) : LuaCrtAllocator T :=
  MkLuaCrtAllocator (l_alloc o) (l_ud o).

(** [operator==] and [operator!=] *)
Definition eq {T U : ctype} (_ : LuaCrtAllocator T) (_ : LuaCrtAllocator U) : bool :=
  true.

Definition ne {T U : ctype} (_ : LuaCrtAllocator T) (_ : LuaCrtAllocator U) : bool :=
  false.

End Caching.

(** ** The allocator over [global_State] *)

Module Internal.
Section Methods.
Context {Mem : Type}.
Variable code : Z -> lua_Alloc Mem.
Variable cfg : config.
Variable T : ctype.

(** [InternalLuaCrtAllocator() = default] *)
Definition init : InternalLuaCrtAllocator T := MkInternalLuaCrtAllocator nullptr.

(** [InternalLuaCrtAllocator(global_State *G) : _G(G)] *)
Definition of_global (g : Z) : InternalLuaCrtAllocator T :=
  MkInternalLuaCrtAllocator g.

(** [InternalLuaCrtAllocator(lua_State *L) : _G(G(L))] *)
Definition of_state (L : lua_State) : InternalLuaCrtAllocator T :=
  MkInternalLuaCrtAllocator (G L).

Definition Access : M Mem (InternalLuaCrtAllocator T) (InternalLuaCrtAllocator T) :=
  this.

(** [_G->frealloc(_G->ud, block, osize, nsize)] behind the null test. *)
Definition realloc (blk os ns : Z) : M Mem (InternalLuaCrtAllocator T) Z :=
  a <- this ;
  if _G a =? nullptr then throw bad_alloc
  else
    g <- deref (_G a) ;
    call_alloc code (frealloc g) (ud g) blk os ns.

Definition allocate_try (n : Z) : M Mem (InternalLuaCrtAllocator T) (option Z) :=
  if n <=? SIZE_MAX cfg / sizeof T then
    p <- realloc nullptr 0 (size_mul cfg n (sizeof T)) ;
    if p =? nullptr then ret None
    else
      _ <- report cfg T p n true ;
      ret (Some p)
  else ret None.

Definition allocate (n : Z) : M Mem (InternalLuaCrtAllocator T) Z :=
  r <- try_catch_all (allocate_try n) (ret None) ;
  match r with
  | Some p => ret p
  | None => throw bad_alloc
  end.

Definition deallocate (p n : Z) : M Mem (InternalLuaCrtAllocator T) unit :=
  noexcept_body (LUA_ALLOC_NOEXCEPT cfg)
    (_ <- report cfg T p n false ;
     _ <- realloc p n 0 ;
     ret tt).

End Methods.

(** The converting constructor from [InternalLuaCrtAllocator<U>]. *)
Definition rebind {U T : ctype} (o : InternalLuaCrtAllocator U)
  : InternalLuaCrtAllocator T :=
  MkInternalLuaCrtAllocator (_G o).

(** [operator==] and [operator!=] *)
Definition eq {T U : ctype}
  (_ : InternalLuaCrtAllocator T) (_ : InternalLuaCrtAllocator U) : bool := true.

Definition ne {T U : ctype}
  (_ : InternalLuaCrtAllocator T) (_ : InternalLuaCrtAllocator U) : bool := false.

End Internal.

(** ** Clients and hosts used to state the properties *)

(** What a container asks of its allocator. *)
Inductive request : Type :=
| Allocate (n : Z)
| Deallocate (p n : Z).

Section Clients.
Context {Mem O : Type}.

(** A client that issues the requests in turn on one allocator object and
    goes on after an exception; it stops when the program has stopped. *)
Fixpoint serve (perform : request -> M Mem O unit) (rs : list request)
  (s : frame Mem O) : frame Mem O :=
  match rs with
  | [] => s
  | r :: rs' =>
      match perform r s with
      | (Ret _, s') | (Raise _, s') => serve perform rs' s'
      | (Terminated, s') | (Undef _, s') => s'
      end
  end.

(** The host overwrites the record at address [g] (as [lua_setallocf]
    does for the two fields modelled). *)
Definition store_global (g : Z) (r : global_State) (s : frame Mem O) : frame Mem O :=
  Frame (self s)
    (World (<[g := r]> (globals (env s))) (heap (env s)) (calls (env s))
       (cout (env s))).

(** The calls of the world [w'] are those of [w] followed by calls that
    all went to the function [f] with the opaque pointer [u]. *)
Definition extends_with (f u : Z) (w w' : world Mem) : Prop :=
  exists evs,
    calls w' = calls w ++ evs /\
    Forall (fun c => fn c = f /\ opaque c = u) evs.

(** A computation that leaves the object it runs on as it found it,
    however it ends. *)
Definition keeps_self {A} (m : M Mem O A) : Prop :=
  forall s, self (snd (m s)) = self s.

End Clients.

Module Caching_client.
Definition perform {Mem} (code : Z -> lua_Alloc Mem) (cfg : config) (T : ctype)
  (r : request) : M Mem (LuaCrtAllocator T) unit :=
  match r with
  | Allocate n => _ <- Caching.allocate code cfg T n ; ret tt
  | Deallocate p n => Caching.deallocate code cfg T p n
  end.
End Caching_client.

(** A host whose memory state is the next free address.  The function at
    address [4096] hands out consecutive blocks and frees by doing nothing;
    the one at [8192] does the same from the same state (a replacement
    installed by a profiler); every other is out of memory. *)
Module Demo.
Definition bump (u b os ns : Z) (next : Z) : Z * Z :=
  if ns =? 0 then (nullptr, next) else (next, next + ns).

Definition exhausted (u b os ns : Z) (next : Z) : Z * Z := (nullptr, next).

Definition code (f : Z) : lua_Alloc Z :=
  if (f =? 4096) || (f =? 8192) then bump else exhausted.

(** An LP64 build under C++17, without the diagnostics. *)
Definition lp64 : config := Config 64 201703 false.

(** The same sources where [__cplusplus] reads 199711. *)
Definition legacy : config := Config 64 199711 false.

Definition int32 : ctype := CType 4.

(** Three host records: [H1] registered with the function at [4096] and
    the opaque pointer [7], [H2] with the one at [8192] and [9], [H_oom]
    with a function that is out of memory. *)
Definition H1 : global_State := GlobalState 4096 7.
Definition H2 : global_State := GlobalState 8192 9.
Definition H_oom : global_State := GlobalState 12288 0.

(** The three records live at the addresses [16], [32] and [48]; the next
    free address is [65536]; nothing was called or written yet. *)
Definition boot : world Z :=
  World (<[16 := H1]> (<[32 := H2]> (<[48 := H_oom]> ∅))) 65536 [] [].

(** A handle to each host. *)
Definition L1 : lua_State := LuaState 16.
Definition L2 : lua_State := LuaState 32.
Definition L3 : lua_State := LuaState 48.
End Demo.

(** ** Relating two runs *)

(** The configuration [cfg] with [LUA_ALLOC_DEBUG] defined or not. *)
Definition with_debug (b : bool) (cfg : config) : config :=
  Config (size_bits cfg) (cplusplus cfg) b.

Section Relations.
Context {Mem : Type}.

(** Two worlds that differ at most in what was written to [cout]. *)
Definition same_but_cout (w w' : world Mem) : Prop :=
  globals w = globals w' /\ heap w = heap w' /\ calls w = calls w'.

(** Two worlds that differ at most in the host records. *)
Definition same_but_globals (w w' : world Mem) : Prop :=
  heap w = heap w' /\ calls w = calls w' /\ cout w = cout w'.

(** Two states with the same object and worlds related by [R]. *)
Definition related {O} (R : world Mem -> world Mem -> Prop) (s s' : frame Mem O) : Prop :=
  self s = self s' /\ R (env s) (env s').

(** Two computations that, from related states, end the same way in
    related states. *)
Definition sim {O A} (R : world Mem -> world Mem -> Prop) (m m' : M Mem O A) : Prop :=
  forall s s', related R s s' ->
    fst (m s) = fst (m' s') /\ related R (snd (m s)) (snd (m' s')).

End Relations.

(** * Properties *)

(** ** Arithmetic of the size guard *)

Section Guard.
Variable cfg : config.

Lemma guard_spec (n s : Z) :
  0 < s -> (n <=? SIZE_MAX cfg / s) = true <-> n * s <= SIZE_MAX cfg.
Proof.
  intros Hs. rewrite Z.leb_le. split; intros Hle.
  - pose proof (Z.mul_div_le (SIZE_MAX cfg) s Hs) as Hd.
    assert (n * s <= SIZE_MAX cfg / s * s) by nia. lia.
  - apply Z.div_le_lower_bound; lia.
Qed.

Lemma guard_overflow (n s : Z) :
  0 < s -> SIZE_MAX cfg < n * s -> (n <=? SIZE_MAX cfg / s) = false.
Proof.
  intros Hs Hov. destruct (n <=? SIZE_MAX cfg / s) eqn:E; [|reflexivity].
  apply guard_spec in E; [lia | assumption].
Qed.

Lemma size_mul_exact (n s : Z) :
  0 <= n -> 0 < s -> n * s <= SIZE_MAX cfg -> size_mul cfg n s = n * s.
Proof.
  unfold size_mul, SIZE_MAX. intros Hn Hs Hle.
  apply Z.mod_small. split; [nia | lia].
Qed.

Lemma guard_zero (s : Z) :
  0 <= size_bits cfg -> 0 < s -> (0 <=? SIZE_MAX cfg / s) = true.
Proof.
  intros Hb Hs. apply guard_spec; [assumption|].
  unfold SIZE_MAX. pose proof (Z.pow_pos_nonneg 2 (size_bits cfg)). lia.
Qed.

Lemma size_mul_zero (s : Z) : size_mul cfg 0 s = 0.
Proof. unfold size_mul. rewrite Z.mul_0_l. apply Zmod_0_l. Qed.
End Guard.

(** ** The monad's combinators and the object *)

Section Keeps_self.
Context {Mem O : Type}.
Variable code : Z -> lua_Alloc Mem.
Variable cfg : config.

Lemma keeps_self_ret {A} (x : A) : keeps_self (Mem:=Mem) (O:=O) (ret x).
Proof. intros s. reflexivity. Qed.

Lemma keeps_self_throw {A} (e : exn) : keeps_self (Mem:=Mem) (O:=O) (A:=A) (throw e).
Proof. intros s. reflexivity. Qed.

Lemma keeps_self_this : keeps_self (Mem:=Mem) (O:=O) this.
Proof. intros s. reflexivity. Qed.

Lemma keeps_self_bind {A B} (m : M Mem O A) (k : A -> M Mem O B) :
  keeps_self m -> (forall x, keeps_self (k x)) -> keeps_self (bind m k).
Proof.
  intros Hm Hk s. unfold bind. specialize (Hm s).
  destruct (m s) as [[x|e| |u] s1]; simpl in *; try assumption.
  rewrite Hk. assumption.
Qed.

Lemma keeps_self_try {A} (m h : M Mem O A) :
  keeps_self m -> keeps_self h -> keeps_self (try_catch_all m h).
Proof.
  intros Hm Hh s. unfold try_catch_all. specialize (Hm s).
  destruct (m s) as [[x|e| |u] s1]; simpl in *; try assumption.
  rewrite Hh. assumption.
Qed.

Lemma keeps_self_noexcept {A} (b : bool) (m : M Mem O A) :
  keeps_self m -> keeps_self (noexcept_body b m).
Proof.
  intros Hm s. unfold noexcept_body. specialize (Hm s).
  destruct (m s) as [[x|e| |u] s1]; simpl in *; try assumption.
  destruct b; assumption.
Qed.

Lemma keeps_self_call (f u b os ns : Z) :
  keeps_self (O:=O) (call_alloc code f u b os ns).
Proof. intros s. unfold call_alloc. destruct (f =? nullptr); reflexivity. Qed.

Lemma keeps_self_deref (g : Z) : keeps_self (Mem:=Mem) (O:=O) (deref g).
Proof. intros s. unfold deref. destruct (globals (env s) !! g); reflexivity. Qed.

Lemma keeps_self_report (T : ctype) (p n : Z) (alloc : bool) :
  keeps_self (Mem:=Mem) (O:=O) (report cfg T p n alloc).
Proof. intros s. reflexivity. Qed.

Lemma keeps_self_if {A} (b : bool) (m1 m2 : M Mem O A) :
  keeps_self m1 -> keeps_self m2 -> keeps_self (if b then m1 else m2).
Proof. destruct b; trivial. Qed.
End Keeps_self.

Create HintDb frame_db.
#[local] Hint Resolve keeps_self_ret keeps_self_throw keeps_self_this
  keeps_self_call keeps_self_deref keeps_self_report : frame_db.
#[local] Hint Extern 2 (keeps_self (bind _ _)) =>
  apply keeps_self_bind; [|intro] : frame_db.
#[local] Hint Extern 2 (keeps_self (try_catch_all _ _)) =>
  apply keeps_self_try : frame_db.
#[local] Hint Extern 2 (keeps_self (noexcept_body _ _)) =>
  apply keeps_self_noexcept : frame_db.
#[local] Hint Extern 3 (keeps_self (if _ then _ else _)) =>
  apply keeps_self_if : frame_db.
#[local] Hint Extern 3 (keeps_self (match ?r with Some _ => _ | None => _ end)) =>
  destruct r : frame_db.

Section Caching_frame.
Context {Mem : Type}.
Variable code : Z -> lua_Alloc Mem.
Variable cfg : config.
Variable T : ctype.

Lemma caching_realloc_keeps_self (b os ns : Z) :
  keeps_self (Caching.realloc code T b os ns).
Proof. unfold Caching.realloc. auto with frame_db. Qed.

Lemma caching_allocate_keeps_self (n : Z) :
  keeps_self (Caching.allocate code cfg T n).
Proof.
  pose proof caching_realloc_keeps_self.
  unfold Caching.allocate, Caching.allocate_try. auto 8 with frame_db.
Qed.

Lemma caching_deallocate_keeps_self (p n : Z) :
  keeps_self (Caching.deallocate code cfg T p n).
Proof.
  pose proof caching_realloc_keeps_self.
  unfold Caching.deallocate. auto 8 with frame_db.
Qed.
End Caching_frame.

Section Internal_frame.
Context {Mem : Type}.
Variable code : Z -> lua_Alloc Mem.
Variable cfg : config.
Variable T : ctype.

Lemma internal_realloc_keeps_self (b os ns : Z) :
  keeps_self (Internal.realloc code T b os ns).
Proof. unfold Internal.realloc. auto 8 with frame_db. Qed.

Lemma internal_allocate_keeps_self (n : Z) :
  keeps_self (Internal.allocate code cfg T n).
Proof.
  pose proof internal_realloc_keeps_self.
  unfold Internal.allocate, Internal.allocate_try. auto 8 with frame_db.
Qed.

Lemma internal_deallocate_keeps_self (p n : Z) :
  keeps_self (Internal.deallocate code cfg T p n).
Proof.
  pose proof internal_realloc_keeps_self.
  unfold Internal.deallocate. auto 8 with frame_db.
Qed.
End Internal_frame.

(** ** What each member function computes *)

Section Caching_equations.
Context {Mem : Type}.
Variable code : Z -> lua_Alloc Mem.
Variable cfg : config.
Variable T : ctype.
Implicit Types (a : LuaCrtAllocator T) (w : world Mem).

Lemma caching_realloc_eq a w (b os ns : Z) :
  Caching.realloc code T b os ns (Frame a w) =
  if l_alloc a =? nullptr then (Raise bad_alloc, Frame a w)
  else (Ret (answer code (l_alloc a) (l_ud a) b os ns w),
        Frame a (after_call code (l_alloc a) (l_ud a) b os ns w)).
Proof.
  unfold Caching.realloc, bind, this, throw, call_alloc. simpl.
  destruct (l_alloc a =? nullptr); reflexivity.
Qed.

Lemma caching_allocate_eq a w (n : Z) :
  Caching.allocate code cfg T n (Frame a w) =
  if (n <=? SIZE_MAX cfg / sizeof T) && negb (l_alloc a =? nullptr) then
    let sz := size_mul cfg n (sizeof T) in
    let p := answer code (l_alloc a) (l_ud a) nullptr 0 sz w in
    let w' := after_call code (l_alloc a) (l_ud a) nullptr 0 sz w in
    if p =? nullptr then (Raise bad_alloc, Frame a w')
    else (Ret p, Frame a (reported cfg T p n true w'))
  else (Raise bad_alloc, Frame a w).
Proof.
  unfold Caching.allocate, Caching.allocate_try.
  destruct (n <=? SIZE_MAX cfg / sizeof T); simpl; [|reflexivity].
  unfold bind at 1. unfold try_catch_all. unfold bind at 1.
  rewrite caching_realloc_eq.
  destruct (l_alloc a =? nullptr); simpl; [reflexivity|].
  destruct (answer code _ _ _ _ _ w =? nullptr); reflexivity.
Qed.

Lemma caching_deallocate_eq a w (p n : Z) :
  Caching.deallocate code cfg T p n (Frame a w) =
  let w0 := reported cfg T p n false w in
  if l_alloc a =? nullptr then
    (if LUA_ALLOC_NOEXCEPT cfg then Terminated else Raise bad_alloc, Frame a w0)
  else (Ret tt, Frame a (after_call code (l_alloc a) (l_ud a) p n 0 w0)).
Proof.
  unfold Caching.deallocate, noexcept_body. unfold bind at 1.
  unfold report at 1. simpl. unfold bind at 1.
  rewrite caching_realloc_eq.
  destruct (l_alloc a =? nullptr); simpl; [|reflexivity].
  destruct (LUA_ALLOC_NOEXCEPT cfg); reflexivity.
Qed.

Lemma caching_resolve_eq a w (L : lua_State) :
  Caching.resolve T L (Frame a w) =
  match globals w !! G L with
  | Some g => (Ret tt, Frame (MkLuaCrtAllocator (frealloc g) (ud g)) w)
  | None => (Undef WildPointer, Frame a w)
  end.
Proof.
  unfold Caching.resolve, lua_getallocf, bind, deref, assign, ret. simpl.
  destruct (globals w !! G L); reflexivity.
Qed.

Lemma caching_Validate_eq a w (L : lua_State) :
  Caching.Validate T L (Frame a w) =
  match globals w !! G L with
  | Some g =>
      (Ret (MkLuaCrtAllocator (frealloc g) (ud g)),
       Frame (MkLuaCrtAllocator (frealloc g) (ud g)) w)
  | None => (Undef WildPointer, Frame a w)
  end.
Proof.
  unfold Caching.Validate. unfold bind at 1. rewrite caching_resolve_eq.
  destruct (globals w !! G L); reflexivity.
Qed.

Lemma caching_construct_eq w (L : lua_State) :
  Caching.construct T L w =
  match globals w !! G L with
  | Some g => (Ret (MkLuaCrtAllocator (frealloc g) (ud g)), w)
  | None => (Undef WildPointer, w)
  end.
Proof.
  unfold Caching.construct. unfold bind at 1. rewrite caching_resolve_eq.
  destruct (globals w !! G L); reflexivity.
Qed.
End Caching_equations.

Section Internal_equations.
Context {Mem : Type}.
Variable code : Z -> lua_Alloc Mem.
Variable cfg : config.
Variable T : ctype.
Implicit Types (i : InternalLuaCrtAllocator T) (w : world Mem).

Lemma internal_realloc_eq i w (b os ns : Z) :
  Internal.realloc code T b os ns (Frame i w) =
  if _G i =? nullptr then (Raise bad_alloc, Frame i w)
  else
    match globals w !! _G i with
    | None => (Undef WildPointer, Frame i w)
    | Some g =>
        if frealloc g =? nullptr then (Undef NullCall, Frame i w)
        else (Ret (answer code (frealloc g) (ud g) b os ns w),
              Frame i (after_call code (frealloc g) (ud g) b os ns w))
    end.
Proof.
  unfold Internal.realloc, bind, this, throw, deref, call_alloc.
  cbn [self env].
  destruct (_G i =? nullptr); [reflexivity|]. cbn [self env].
  destruct (globals w !! _G i) as [g|]; [|reflexivity]. cbn [self env].
  destruct (frealloc g =? nullptr); reflexivity.
Qed.

(** With a live record behind [_G] whose function is not null. *)
Lemma internal_realloc_live i w (g : global_State) (b os ns : Z) :
  _G i <> nullptr -> globals w !! _G i = Some g -> frealloc g <> nullptr ->
  Internal.realloc code T b os ns (Frame i w) =
  (Ret (answer code (frealloc g) (ud g) b os ns w),
   Frame i (after_call code (frealloc g) (ud g) b os ns w)).
Proof.
  intros Hi Hg Hf. rewrite internal_realloc_eq, Hg.
  apply Z.eqb_neq in Hi, Hf. rewrite Hi, Hf. reflexivity.
Qed.

Lemma internal_realloc_null i w (b os ns : Z) :
  _G i = nullptr ->
  Internal.realloc code T b os ns (Frame i w) = (Raise bad_alloc, Frame i w).
Proof.
  intros Hi. rewrite internal_realloc_eq.
  apply Z.eqb_eq in Hi. rewrite Hi. reflexivity.
Qed.

Lemma internal_allocate_live i w (g : global_State) (n : Z) :
  _G i <> nullptr -> globals w !! _G i = Some g -> frealloc g <> nullptr ->
  Internal.allocate code cfg T n (Frame i w) =
  if n <=? SIZE_MAX cfg / sizeof T then
    let sz := size_mul cfg n (sizeof T) in
    let p := answer code (frealloc g) (ud g) nullptr 0 sz w in
    let w' := after_call code (frealloc g) (ud g) nullptr 0 sz w in
    if p =? nullptr then (Raise bad_alloc, Frame i w')
    else (Ret p, Frame i (reported cfg T p n true w'))
  else (Raise bad_alloc, Frame i w).
Proof.
  intros Hi Hg Hf.
  unfold Internal.allocate, Internal.allocate_try.
  destruct (n <=? SIZE_MAX cfg / sizeof T); simpl; [|reflexivity].
  unfold bind at 1. unfold try_catch_all. unfold bind at 1.
  rewrite (internal_realloc_live i w g) by assumption. simpl.
  destruct (answer code _ _ _ _ _ w =? nullptr); reflexivity.
Qed.

Lemma internal_allocate_null i w (n : Z) :
  _G i = nullptr ->
  Internal.allocate code cfg T n (Frame i w) = (Raise bad_alloc, Frame i w).
Proof.
  intros Hi.
  unfold Internal.allocate, Internal.allocate_try.
  destruct (n <=? SIZE_MAX cfg / sizeof T); simpl; [|reflexivity].
  unfold bind at 1. unfold try_catch_all. unfold bind at 1.
  rewrite internal_realloc_null by assumption. reflexivity.
Qed.

Lemma internal_allocate_guard i w (n : Z) :
  (n <=? SIZE_MAX cfg / sizeof T) = false ->
  Internal.allocate code cfg T n (Frame i w) = (Raise bad_alloc, Frame i w).
Proof.
  intros Hn. unfold Internal.allocate, Internal.allocate_try.
  rewrite Hn. reflexivity.
Qed.

Lemma internal_deallocate_live i w (g : global_State) (p n : Z) :
  _G i <> nullptr ->
  globals w !! _G i = Some g -> frealloc g <> nullptr ->
  Internal.deallocate code cfg T p n (Frame i w) =
  (Ret tt,
   Frame i (after_call code (frealloc g) (ud g) p n 0 (reported cfg T p n false w))).
Proof.
  intros Hi Hg Hf.
  unfold Internal.deallocate, noexcept_body. unfold bind at 1.
  unfold report at 1. simpl. unfold bind at 1.
  rewrite (internal_realloc_live i _ g); try assumption; [reflexivity|].
  unfold reported. destruct (LUA_ALLOC_DEBUG cfg); assumption.
Qed.
End Internal_equations.

(** * The claims *)

(** ** Allocation *)

(** C3: when [n * sizeof(T)] exceeds the largest [size_t], the guard
    [n <= max / sizeof(T)] is false, so [allocate(n)] of either allocator
    throws [std::bad_alloc] and leaves the whole state as it was: no call
    reaches the host, and the wrapped product is never looked at. *)
Theorem allocate_overflow_raises {Mem} (code : Z -> lua_Alloc Mem) (cfg : config)
    (T : ctype) (n : Z) :
  0 < sizeof T ->
  SIZE_MAX cfg < n * sizeof T ->
  (n <=? SIZE_MAX cfg / sizeof T) = false /\
  (forall (a : LuaCrtAllocator T) (w : world Mem),
     Caching.allocate code cfg T n (Frame a w) = (Raise bad_alloc, Frame a w)) /\
  (forall (i : InternalLuaCrtAllocator T) (w : world Mem),
     Internal.allocate code cfg T n (Frame i w) = (Raise bad_alloc, Frame i w)).
Proof.
  intros Hs Hov. pose proof (guard_overflow cfg n (sizeof T) Hs Hov) as Hg.
  split; [assumption|]. split.
  - intros a w. rewrite caching_allocate_eq, Hg. reflexivity.
  - intros i w. apply internal_allocate_guard. assumption.
Qed.

Lemma allocate_overflow_raises_witness :
  (2 ^ 62 <=? SIZE_MAX Demo.lp64 / sizeof Demo.int32) = false /\
  Caching.allocate Demo.code Demo.lp64 Demo.int32 (2 ^ 62)
    (Frame (MkLuaCrtAllocator 4096 7) Demo.boot)
  = (Raise bad_alloc, Frame (MkLuaCrtAllocator 4096 7) Demo.boot) /\
  Internal.allocate Demo.code Demo.lp64 Demo.int32 (2 ^ 62)
    (Frame (Internal.of_state Demo.int32 Demo.L1) Demo.boot)
  = (Raise bad_alloc, Frame (Internal.of_state Demo.int32 Demo.L1) Demo.boot).
Proof.
  destruct (allocate_overflow_raises Demo.code Demo.lp64 Demo.int32 (2 ^ 62))
    as (Hg & Hc & Hi).
  - simpl. lia.
  - vm_compute. reflexivity.
  - split; [exact Hg|]. split; [apply Hc | apply Hi].
Defined.

(** C5: when [n * sizeof(T)] fits in a [size_t] and the resolved host
    function answers the request with a block [p] that is not null,
    [allocate(n)] calls that function once, with [(ud, nullptr, 0,
    n * sizeof(T))], and returns [p]. *)
Theorem allocate_returns_host_block {Mem} (code : Z -> lua_Alloc Mem) (cfg : config)
    (T : ctype) (n p : Z) (m : Mem) :
  0 <= n -> 0 < sizeof T -> n * sizeof T <= SIZE_MAX cfg ->
  p <> nullptr ->
  (forall (a : LuaCrtAllocator T) (w : world Mem),
     l_alloc a <> nullptr ->
     code (l_alloc a) (l_ud a) nullptr 0 (n * sizeof T) (heap w) = (p, m) ->
     let r := Caching.allocate code cfg T n (Frame a w) in
     fst r = Ret p /\
     calls (env (snd r)) =
       calls w ++ [AllocCall (l_alloc a) (l_ud a) nullptr 0 (n * sizeof T)] /\
     heap (env (snd r)) = m) /\
  (forall (i : InternalLuaCrtAllocator T) (g : global_State) (w : world Mem),
     _G i <> nullptr -> globals w !! _G i = Some g -> frealloc g <> nullptr ->
     code (frealloc g) (ud g) nullptr 0 (n * sizeof T) (heap w) = (p, m) ->
     let r := Internal.allocate code cfg T n (Frame i w) in
     fst r = Ret p /\
     calls (env (snd r)) =
       calls w ++ [AllocCall (frealloc g) (ud g) nullptr 0 (n * sizeof T)] /\
     heap (env (snd r)) = m).
Proof.
  intros Hn Hs Hfit Hp.
  assert (Hg : (n <=? SIZE_MAX cfg / sizeof T) = true) by (apply guard_spec; assumption).
  pose proof (size_mul_exact cfg n (sizeof T) Hn Hs Hfit) as Hmul.
  apply Z.eqb_neq in Hp.
  split.
  - intros a w Ha Hcall r. subst r.
    rewrite caching_allocate_eq, Hg, Hmul.
    apply Z.eqb_neq in Ha. rewrite Ha. cbn [andb negb].
    unfold answer, after_call. rewrite Hcall. cbn [fst snd]. rewrite Hp.
    cbn [fst snd env]. unfold reported, record_report, record_call.
    destruct (LUA_ALLOC_DEBUG cfg); cbn [calls heap]; auto.
  - intros i g w Hi Hlive Hf Hcall r. subst r.
    rewrite (internal_allocate_live code cfg T i w g) by assumption.
    rewrite Hg, Hmul.
    unfold answer, after_call. rewrite Hcall. cbn [fst snd]. rewrite Hp.
    cbn [fst snd env]. unfold reported, record_report, record_call.
    destruct (LUA_ALLOC_DEBUG cfg); cbn [calls heap]; auto.
Qed.

Lemma allocate_returns_host_block_witness :
  (let r := Caching.allocate Demo.code Demo.lp64 Demo.int32 10
              (Frame (MkLuaCrtAllocator 4096 7) Demo.boot) in
   fst r = Ret 65536 /\
   calls (env (snd r)) = [] ++ [AllocCall 4096 7 nullptr 0 (10 * 4)] /\
   heap (env (snd r)) = 65576) /\
  (let r := Internal.allocate Demo.code Demo.lp64 Demo.int32 10
              (Frame (Internal.of_state Demo.int32 Demo.L1) Demo.boot) in
   fst r = Ret 65536 /\
   calls (env (snd r)) = [] ++ [AllocCall 4096 7 nullptr 0 (10 * 4)] /\
   heap (env (snd r)) = 65576).
Proof.
  destruct (allocate_returns_host_block Demo.code Demo.lp64 Demo.int32 10 65536 65576)
    as (Hc & Hi).
  - lia.
  - simpl. lia.
  - vm_compute. discriminate.
  - vm_compute. discriminate.
  - split.
    + apply (Hc (MkLuaCrtAllocator 4096 7) Demo.boot).
      * vm_compute. discriminate.
      * reflexivity.
    + apply (Hi (Internal.of_state Demo.int32 Demo.L1) Demo.H1 Demo.boot).
      * vm_compute. discriminate.
      * reflexivity.
      * vm_compute. discriminate.
      * reflexivity.
Defined.

(** C10: [allocate(0)] passes the guard; with a resolved host function it
    makes one call, [(ud, nullptr, 0, 0)], and throws [std::bad_alloc]
    whenever the answer is null (it returns the answer otherwise).  Under a
    host that answers null to every request of size zero, [allocate(0)]
    never succeeds. *)
Theorem allocate_zero_calls_host {Mem} (code : Z -> lua_Alloc Mem) (cfg : config)
    (T : ctype) :
  0 <= size_bits cfg -> 0 < sizeof T ->
  (0 <=? SIZE_MAX cfg / sizeof T) = true /\
  (forall (a : LuaCrtAllocator T) (w : world Mem),
     l_alloc a <> nullptr ->
     let r := Caching.allocate code cfg T 0 (Frame a w) in
     let p := answer code (l_alloc a) (l_ud a) nullptr 0 0 w in
     calls (env (snd r)) = calls w ++ [AllocCall (l_alloc a) (l_ud a) nullptr 0 0] /\
     (p = nullptr -> fst r = Raise bad_alloc) /\
     (p <> nullptr -> fst r = Ret p)) /\
  (forall (i : InternalLuaCrtAllocator T) (g : global_State) (w : world Mem),
     _G i <> nullptr -> globals w !! _G i = Some g -> frealloc g <> nullptr ->
     let r := Internal.allocate code cfg T 0 (Frame i w) in
     let p := answer code (frealloc g) (ud g) nullptr 0 0 w in
     calls (env (snd r)) = calls w ++ [AllocCall (frealloc g) (ud g) nullptr 0 0] /\
     (p = nullptr -> fst r = Raise bad_alloc) /\
     (p <> nullptr -> fst r = Ret p)).
Proof.
  intros Hb Hs. pose proof (guard_zero cfg (sizeof T) Hb Hs) as Hg.
  split; [assumption|]. split.
  - intros a w Ha r p. subst r p.
    rewrite caching_allocate_eq, Hg, size_mul_zero.
    apply Z.eqb_neq in Ha. rewrite Ha. cbn [andb negb].
    destruct (answer code (l_alloc a) (l_ud a) nullptr 0 0 w =? nullptr) eqn:E;
      cbn [fst snd env].
    + apply Z.eqb_eq in E.
      split; [reflexivity | split; intros; congruence].
    + apply Z.eqb_neq in E. unfold reported.
      destruct (LUA_ALLOC_DEBUG cfg);
        (split; [reflexivity | split; intros; congruence]).
  - intros i g w Hi Hlive Hf r p. subst r p.
    rewrite (internal_allocate_live code cfg T i w g) by assumption.
    rewrite Hg, size_mul_zero. cbv zeta.
    destruct (answer code (frealloc g) (ud g) nullptr 0 0 w =? nullptr) eqn:E;
      cbn [fst snd env].
    + apply Z.eqb_eq in E.
      split; [reflexivity | split; intros; congruence].
    + apply Z.eqb_neq in E. unfold reported.
      destruct (LUA_ALLOC_DEBUG cfg);
        (split; [reflexivity | split; intros; congruence]).
Qed.

Lemma allocate_zero_calls_host_witness :
  (let r := Caching.allocate Demo.code Demo.lp64 Demo.int32 0
              (Frame (MkLuaCrtAllocator 4096 7) Demo.boot) in
   calls (env (snd r)) = [] ++ [AllocCall 4096 7 nullptr 0 0] /\
   fst r = Raise bad_alloc) /\
  (let r := Internal.allocate Demo.code Demo.lp64 Demo.int32 0
              (Frame (Internal.of_state Demo.int32 Demo.L2) Demo.boot) in
   calls (env (snd r)) = [] ++ [AllocCall 8192 9 nullptr 0 0] /\
   fst r = Raise bad_alloc).
Proof.
  destruct (allocate_zero_calls_host Demo.code Demo.lp64 Demo.int32)
    as (_ & Hc & Hi).
  - simpl. lia.
  - simpl. lia.
  - split.
    + destruct (Hc (MkLuaCrtAllocator 4096 7) Demo.boot) as (Hcalls & Hnull & _).
      * vm_compute. discriminate.
      * split; [exact Hcalls | apply Hnull; reflexivity].
    + destruct (Hi (Internal.of_state Demo.int32 Demo.L2) Demo.H2 Demo.boot)
        as (Hcalls & Hnull & _).
      * vm_compute. discriminate.
      * reflexivity.
      * vm_compute. discriminate.
      * split; [exact Hcalls | apply Hnull; reflexivity].
Defined.

(** C4, as the code has it: [allocate(n)] throws [std::bad_alloc] exactly
    when the byte size overflows, or the allocator has nothing to call (a
    null [l_alloc]; a null [_G]), or the host function answers the request
    with null, whatever the size requested, zero included.  A pointer that
    is returned is never null, and a call of [allocate] makes at most one
    call to the host.  For the allocator over [global_State] this is for a
    [_G] that is null or the address of a live record whose function is not
    null. *)
Theorem allocate_raises_iff {Mem} (code : Z -> lua_Alloc Mem) (cfg : config)
    (T : ctype) (n : Z) :
  0 <= n -> 0 < sizeof T ->
  (forall (a : LuaCrtAllocator T) (w : world Mem),
     let r := Caching.allocate code cfg T n (Frame a w) in
     (fst r = Raise bad_alloc <->
        SIZE_MAX cfg < n * sizeof T \/
        l_alloc a = nullptr \/
        answer code (l_alloc a) (l_ud a) nullptr 0 (n * sizeof T) w = nullptr) /\
     (forall p, fst r = Ret p -> p <> nullptr) /\
     (length (calls (env (snd r))) <= S (length (calls w)))%nat) /\
  (forall (i : InternalLuaCrtAllocator T) (g : global_State) (w : world Mem),
     (_G i <> nullptr -> globals w !! _G i = Some g /\ frealloc g <> nullptr) ->
     let r := Internal.allocate code cfg T n (Frame i w) in
     (fst r = Raise bad_alloc <->
        SIZE_MAX cfg < n * sizeof T \/
        _G i = nullptr \/
        answer code (frealloc g) (ud g) nullptr 0 (n * sizeof T) w = nullptr) /\
     (forall p, fst r = Ret p -> p <> nullptr) /\
     (length (calls (env (snd r))) <= S (length (calls w)))%nat).
Proof.
  intros Hn Hs.
  assert (Hcalls : forall f u b os ns (w : world Mem),
             length (calls (after_call code f u b os ns w)) = S (length (calls w))).
  { intros. unfold after_call, record_call. cbn [calls].
    rewrite length_app. simpl. lia. }
  assert (Hrep : forall p k al (w : world Mem),
             calls (reported cfg T p k al w) = calls w).
  { intros. unfold reported. destruct (LUA_ALLOC_DEBUG cfg); reflexivity. }
  destruct (n <=? SIZE_MAX cfg / sizeof T) eqn:Hg.
  - (* the guard lets the request through *)
    pose proof (proj1 (guard_spec cfg n (sizeof T) Hs) Hg) as Hfit.
    pose proof (size_mul_exact cfg n (sizeof T) Hn Hs Hfit) as Hmul.
    split.
    + intros a w r. subst r. rewrite caching_allocate_eq, Hg, Hmul.
      destruct (l_alloc a =? nullptr) eqn:Ha; cbn [andb negb fst snd env].
      * apply Z.eqb_eq in Ha. split; [tauto|]. split; [discriminate|]. lia.
      * apply Z.eqb_neq in Ha.
        destruct (answer code (l_alloc a) (l_ud a) nullptr 0 (n * sizeof T) w
                  =? nullptr) eqn:E; cbn [fst snd env].
        -- apply Z.eqb_eq in E. split; [tauto|]. split; [discriminate|].
           rewrite Hcalls. lia.
        -- apply Z.eqb_neq in E. split; [|split].
           ++ split; [discriminate | intros [?|[?|?]]; [lia | tauto | tauto]].
           ++ intros p [= <-]. assumption.
           ++ rewrite Hrep, Hcalls. lia.
    + intros i g w Hlive r. subst r.
      destruct (Z.eq_dec (_G i) nullptr) as [Hi|Hi].
      * rewrite internal_allocate_null by assumption. cbn [fst snd env].
        split; [tauto|]. split; [discriminate|]. lia.
      * destruct (Hlive Hi) as [Hrec Hf].
        rewrite (internal_allocate_live code cfg T i w g) by assumption.
        rewrite Hg, Hmul. cbv zeta.
        destruct (answer code (frealloc g) (ud g) nullptr 0 (n * sizeof T) w
                  =? nullptr) eqn:E; cbn [fst snd env].
        -- apply Z.eqb_eq in E. split; [tauto|]. split; [discriminate|].
           rewrite Hcalls. lia.
        -- apply Z.eqb_neq in E. split; [|split].
           ++ split; [discriminate | intros [?|[?|?]]; [lia | tauto | tauto]].
           ++ intros p [= <-]. assumption.
           ++ rewrite Hrep, Hcalls. lia.
  - (* the guard stops it *)
    assert (Hov : SIZE_MAX cfg < n * sizeof T).
    { destruct (Z.lt_ge_cases (SIZE_MAX cfg) (n * sizeof T)) as [|Hle]; [assumption|].
      apply (guard_spec cfg n (sizeof T) Hs) in Hle. congruence. }
    split.
    + intros a w r. subst r. rewrite caching_allocate_eq, Hg.
      cbn [andb fst snd env]. split; [tauto|]. split; [discriminate|]. lia.
    + intros i g w _ r. subst r. rewrite internal_allocate_guard by assumption.
      cbn [fst snd env]. split; [tauto|]. split; [discriminate|]. lia.
Qed.

Lemma allocate_raises_iff_witness :
  (fst (Caching.allocate Demo.code Demo.lp64 Demo.int32 10
          (Frame (MkLuaCrtAllocator 12288 0) Demo.boot)) = Raise bad_alloc) /\
  (fst (Internal.allocate Demo.code Demo.lp64 Demo.int32 10
          (Frame (Internal.of_state Demo.int32 Demo.L3) Demo.boot)) = Raise bad_alloc).
Proof.
  destruct (allocate_raises_iff Demo.code Demo.lp64 Demo.int32 10) as (Hc & Hi).
  - lia.
  - simpl. lia.
  - split.
    + apply (Hc (MkLuaCrtAllocator 12288 0) Demo.boot).
      right. right. reflexivity.
    + apply (Hi (Internal.of_state Demo.int32 Demo.L3) Demo.H_oom Demo.boot).
      * intros _. split; [reflexivity | vm_compute; discriminate].
      * right. right. reflexivity.
Defined.

(** C4 as the claim words it, with the third case kept to requests of
    non-zero size, fails: [allocate(0)] on a host that answers null to a
    request of size zero throws, and none of the three cases holds. *)
Lemma allocate_raises_on_empty_request :
  fst (Caching.allocate Demo.code Demo.lp64 Demo.int32 0
         (Frame (MkLuaCrtAllocator 4096 7) Demo.boot)) = Raise bad_alloc /\
  ~ (SIZE_MAX Demo.lp64 < 0 * sizeof Demo.int32 \/
     l_alloc (MkLuaCrtAllocator (T:=Demo.int32) 4096 7) = nullptr \/
     (0 * sizeof Demo.int32 <> 0 /\
      answer Demo.code 4096 7 nullptr 0 (0 * sizeof Demo.int32) Demo.boot = nullptr)).
Proof.
  split; [reflexivity|].
  intros [Hov|[Hnull|[Hsz _]]].
  - vm_compute in Hov. discriminate.
  - discriminate.
  - apply Hsz. reflexivity.
Qed.

(** ** Deallocation *)

Section Deallocate_resolved.
Context {Mem : Type}.
Variable code : Z -> lua_Alloc Mem.
Variable cfg : config.
Variable T : ctype.

Lemma calls_reported (p n : Z) (al : bool) (w : world Mem) :
  calls (reported cfg T p n al w) = calls w.
Proof. unfold reported. destruct (LUA_ALLOC_DEBUG cfg); reflexivity. Qed.

Lemma heap_reported (p n : Z) (al : bool) (w : world Mem) :
  heap (reported cfg T p n al w) = heap w.
Proof. unfold reported. destruct (LUA_ALLOC_DEBUG cfg); reflexivity. Qed.

Lemma globals_reported (p n : Z) (al : bool) (w : world Mem) :
  globals (reported cfg T p n al w) = globals w.
Proof. unfold reported. destruct (LUA_ALLOC_DEBUG cfg); reflexivity. Qed.

(** With a function to call, [deallocate(p, n)] returns after one call
    whose old size is the element count [n] as it was passed in. *)
Lemma caching_deallocate_resolved (a : LuaCrtAllocator T) (w : world Mem) (p n : Z) :
  l_alloc a <> nullptr ->
  let r := Caching.deallocate code cfg T p n (Frame a w) in
  fst r = Ret tt /\
  calls (env (snd r)) = calls w ++ [AllocCall (l_alloc a) (l_ud a) p n 0].
Proof.
  intros Ha r. subst r. rewrite caching_deallocate_eq. cbv zeta.
  apply Z.eqb_neq in Ha. rewrite Ha. cbn [fst snd env].
  split; [reflexivity|].
  unfold after_call, record_call. cbn [calls]. rewrite calls_reported. reflexivity.
Qed.

Lemma caching_deallocate_unresolved (a : LuaCrtAllocator T) (w : world Mem) (p n : Z) :
  l_alloc a = nullptr ->
  Caching.deallocate code cfg T p n (Frame a w) =
  (if LUA_ALLOC_NOEXCEPT cfg then Terminated else Raise bad_alloc,
   Frame a (reported cfg T p n false w)).
Proof.
  intros Ha. rewrite caching_deallocate_eq. cbv zeta.
  apply Z.eqb_eq in Ha. rewrite Ha. reflexivity.
Qed.

Lemma internal_deallocate_resolved (i : InternalLuaCrtAllocator T) (g : global_State)
    (w : world Mem) (p n : Z) :
  _G i <> nullptr -> globals w !! _G i = Some g -> frealloc g <> nullptr ->
  let r := Internal.deallocate code cfg T p n (Frame i w) in
  fst r = Ret tt /\
  calls (env (snd r)) = calls w ++ [AllocCall (frealloc g) (ud g) p n 0].
Proof.
  intros Hi Hg Hf r. subst r.
  rewrite (internal_deallocate_live code cfg T i w g) by assumption.
  cbn [fst snd env]. split; [reflexivity|].
  unfold after_call, record_call. cbn [calls]. rewrite calls_reported. reflexivity.
Qed.
End Deallocate_resolved.

(** C1 (not what the code does): [deallocate(p, 10)] on 4-byte elements
    should pass the old size 40 to the host; both allocators pass the
    element count 10 as it is, while the line [report] writes for the same
    request says 40 bytes. *)
Theorem deallocate_passes_element_count :
  let a := MkLuaCrtAllocator (T:=Demo.int32) 4096 7 in
  let i := Internal.of_state Demo.int32 Demo.L1 in
  let debug := Config 64 201703 true in
  let rc := Caching.deallocate Demo.code Demo.lp64 Demo.int32 65536 10
              (Frame a Demo.boot) in
  let ri := Internal.deallocate Demo.code Demo.lp64 Demo.int32 65536 10
              (Frame i Demo.boot) in
  let rd := Caching.deallocate Demo.code debug Demo.int32 65536 10
              (Frame a Demo.boot) in
  size_mul Demo.lp64 10 (sizeof Demo.int32) = 40 /\
  fst rc = Ret tt /\
  calls (env (snd rc)) = [AllocCall 4096 7 65536 10 0] /\
  calls (env (snd rc)) <> [AllocCall 4096 7 65536 40 0] /\
  fst ri = Ret tt /\
  calls (env (snd ri)) = [AllocCall 4096 7 65536 10 0] /\
  calls (env (snd rd)) = [AllocCall 4096 7 65536 10 0] /\
  cout (env (snd rd)) = [ReportLine false 40 65536].
Proof.
  cbv zeta.
  destruct (caching_deallocate_resolved Demo.code Demo.lp64 Demo.int32
              (MkLuaCrtAllocator 4096 7) Demo.boot 65536 10) as [Hrc Hcc];
    [vm_compute; discriminate|].
  destruct (internal_deallocate_resolved Demo.code Demo.lp64 Demo.int32
              (Internal.of_state Demo.int32 Demo.L1) Demo.H1 Demo.boot 65536 10)
    as [Hri Hci]; [vm_compute; discriminate | reflexivity | vm_compute; discriminate|].
  split; [reflexivity|]. split; [exact Hrc|]. split; [exact Hcc|].
  split; [rewrite Hcc; intros [=]|].
  split; [exact Hri|]. split; [exact Hci|].
  split; reflexivity.
Qed.

(** C2, as the code has it: [deallocate(p, n)] of the caching allocator
    with a function to call returns after one call to it, for the block [p]
    and the new size 0.  With a null [l_alloc] no call is made at all: the
    test in [realloc] throws [std::bad_alloc], which ends the program in
    [std::terminate] where [deallocate] is [noexcept], and leaves
    [deallocate] as an exception where it is not. *)
Theorem deallocate_guarded {Mem} (code : Z -> lua_Alloc Mem) (cfg : config)
    (T : ctype) (a : LuaCrtAllocator T) (w : world Mem) (p n : Z) :
  let r := Caching.deallocate code cfg T p n (Frame a w) in
  (l_alloc a <> nullptr ->
     fst r = Ret tt /\
     exists os, calls (env (snd r)) = calls w ++ [AllocCall (l_alloc a) (l_ud a) p os 0]) /\
  (l_alloc a = nullptr ->
     fst r = (if LUA_ALLOC_NOEXCEPT cfg then Terminated else Raise bad_alloc) /\
     fst r <> Undef NullCall /\
     calls (env (snd r)) = calls w /\
     heap (env (snd r)) = heap w).
Proof.
  intros r. split; intros Ha.
  - destruct (caching_deallocate_resolved code cfg T a w p n Ha) as [Hr Hc].
    split; [exact Hr|]. exists n. exact Hc.
  - subst r. rewrite caching_deallocate_unresolved by assumption.
    cbn [fst snd env]. rewrite calls_reported, heap_reported.
    destruct (LUA_ALLOC_NOEXCEPT cfg); repeat split; discriminate.
Qed.

(** C2 as the claim words it fails: on an allocator whose [l_alloc] is null,
    [deallocate] does not call through the null pointer; under C++11 the
    program terminates, and where [__cplusplus] is below 201103
    [std::bad_alloc] leaves [deallocate]. *)
Lemma deallocate_null_callback_not_called :
  let r := Caching.deallocate Demo.code Demo.lp64 Demo.int32 65536 10
             (Frame (Caching.init Demo.int32) Demo.boot) in
  let r' := Caching.deallocate Demo.code Demo.legacy Demo.int32 65536 10
              (Frame (Caching.init Demo.int32) Demo.boot) in
  l_alloc (Caching.init Demo.int32) = nullptr /\
  fst r = Terminated /\ fst r <> Undef NullCall /\ calls (env (snd r)) = [] /\
  fst r' = Raise bad_alloc /\ fst r' <> Undef NullCall /\ calls (env (snd r')) = [].
Proof.
  cbv zeta. repeat split; try reflexivity; vm_compute; discriminate.
Qed.

(** ** Which function is called *)

Section Caching_calls.
Context {Mem : Type}.
Variable code : Z -> lua_Alloc Mem.
Variable cfg : config.
Variable T : ctype.
Implicit Types w : world Mem.

Lemma extends_with_refl f u w : extends_with f u w w.
Proof. exists []. split; [symmetry; apply app_nil_r | constructor]. Qed.

Lemma extends_with_trans f u w1 w2 w3 :
  extends_with f u w1 w2 -> extends_with f u w2 w3 -> extends_with f u w1 w3.
Proof.
  intros (e1 & H1 & F1) (e2 & H2 & F2). exists (e1 ++ e2). split.
  - rewrite H2, H1. symmetry. apply app_assoc.
  - apply Forall_app. split; assumption.
Qed.

Lemma extends_with_call f u b os ns w :
  extends_with f u w (after_call code f u b os ns w).
Proof.
  exists [AllocCall f u b os ns]. split; [reflexivity|].
  constructor; [split; reflexivity | constructor].
Qed.

Lemma extends_with_reported f u p n al w w' :
  extends_with f u w w' -> extends_with f u w (reported cfg T p n al w').
Proof.
  intros (evs & Hc & HF). exists evs. split; [|assumption].
  rewrite calls_reported. assumption.
Qed.

Lemma caching_allocate_calls (a : LuaCrtAllocator T) (w : world Mem) (n : Z) :
  extends_with (l_alloc a) (l_ud a) w
    (env (snd (Caching.allocate code cfg T n (Frame a w)))).
Proof.
  rewrite caching_allocate_eq.
  destruct ((n <=? SIZE_MAX cfg / sizeof T) && negb (l_alloc a =? nullptr));
    [|apply extends_with_refl].
  cbv zeta.
  destruct (answer code _ _ _ _ _ w =? nullptr); cbn [snd env].
  - apply extends_with_call.
  - apply extends_with_reported, extends_with_call.
Qed.

Lemma caching_deallocate_calls (a : LuaCrtAllocator T) (w : world Mem) (p n : Z) :
  extends_with (l_alloc a) (l_ud a) w
    (env (snd (Caching.deallocate code cfg T p n (Frame a w)))).
Proof.
  rewrite caching_deallocate_eq. cbv zeta.
  destruct (l_alloc a =? nullptr); cbn [snd env].
  - apply extends_with_reported, extends_with_refl.
  - eapply extends_with_trans; [|apply extends_with_call].
    apply extends_with_reported, extends_with_refl.
Qed.

Lemma caching_perform_keeps_self (r : request) :
  keeps_self (Caching_client.perform code cfg T r).
Proof.
  pose proof (caching_allocate_keeps_self code cfg T).
  pose proof (caching_deallocate_keeps_self code cfg T).
  destruct r; unfold Caching_client.perform; auto with frame_db.
Qed.

Lemma caching_perform_calls (r : request) (a : LuaCrtAllocator T) (w : world Mem) :
  extends_with (l_alloc a) (l_ud a) w
    (env (snd (Caching_client.perform code cfg T r (Frame a w)))).
Proof.
  destruct r as [n|p n]; unfold Caching_client.perform.
  - pose proof (caching_allocate_calls a w n) as Hc.
    unfold bind.
    destruct (Caching.allocate code cfg T n (Frame a w)) as [[x|e| |u] s1];
      exact Hc.
  - apply caching_deallocate_calls.
Qed.

(** However many requests follow, every call they make goes to the pair
    cached in the object. *)
Lemma caching_serve_calls (rs : list request) :
  forall (a : LuaCrtAllocator T) (w : world Mem),
    extends_with (l_alloc a) (l_ud a) w
      (env (serve (Caching_client.perform code cfg T) rs (Frame a w))).
Proof.
  induction rs as [|r rs IH]; intros a w; cbn [serve].
  - apply extends_with_refl.
  - pose proof (caching_perform_calls r a w) as Hc.
    pose proof (caching_perform_keeps_self r (Frame a w)) as Hs.
    destruct (Caching_client.perform code cfg T r (Frame a w))
      as [[x|e| |u] [a' w']]; cbn [fst snd self env] in *; subst a';
      try exact Hc;
      (eapply extends_with_trans; [exact Hc | apply IH]).
Qed.
End Caching_calls.

Section One_call.
Context {Mem : Type}.
Variable code : Z -> lua_Alloc Mem.
Variable cfg : config.
Variable T : ctype.

(** With a function to call and a size that fits, [allocate] makes its one
    call whatever the answer. *)
Lemma caching_allocate_one_call (a : LuaCrtAllocator T) (w : world Mem) (n : Z) :
  0 <= n -> 0 < sizeof T -> n * sizeof T <= SIZE_MAX cfg ->
  l_alloc a <> nullptr ->
  calls (env (snd (Caching.allocate code cfg T n (Frame a w)))) =
  calls w ++ [AllocCall (l_alloc a) (l_ud a) nullptr 0 (n * sizeof T)].
Proof.
  intros Hn Hs Hfit Ha.
  rewrite caching_allocate_eq, (proj2 (guard_spec cfg n (sizeof T) Hs) Hfit).
  rewrite (size_mul_exact cfg n (sizeof T) Hn Hs Hfit).
  apply Z.eqb_neq in Ha. rewrite Ha. cbn [andb negb]. cbv zeta.
  destruct (answer code _ _ _ _ _ w =? nullptr); cbn [snd env];
    rewrite ?calls_reported; reflexivity.
Qed.

Lemma internal_allocate_one_call (i : InternalLuaCrtAllocator T) (g : global_State)
    (w : world Mem) (n : Z) :
  0 <= n -> 0 < sizeof T -> n * sizeof T <= SIZE_MAX cfg ->
  _G i <> nullptr -> globals w !! _G i = Some g -> frealloc g <> nullptr ->
  calls (env (snd (Internal.allocate code cfg T n (Frame i w)))) =
  calls w ++ [AllocCall (frealloc g) (ud g) nullptr 0 (n * sizeof T)].
Proof.
  intros Hn Hs Hfit Hi Hlive Hf.
  rewrite (internal_allocate_live code cfg T i w g) by assumption.
  rewrite (proj2 (guard_spec cfg n (sizeof T) Hs) Hfit).
  rewrite (size_mul_exact cfg n (sizeof T) Hn Hs Hfit). cbv zeta.
  destruct (answer code _ _ _ _ _ w =? nullptr); cbn [snd env];
    rewrite ?calls_reported; reflexivity.
Qed.
End One_call.

Section Serving.
Context {Mem : Type}.
Variable code : Z -> lua_Alloc Mem.
Variable cfg : config.
Variable T : ctype.

(** The requests served leave the object as it was. *)
Lemma caching_serve_keeps_self (rs : list request) :
  forall s : frame Mem (LuaCrtAllocator T),
    self (serve (Caching_client.perform code cfg T) rs s) = self s.
Proof.
  induction rs as [|r rs IH]; intros s; cbn [serve]; [reflexivity|].
  pose proof (caching_perform_keeps_self code cfg T r s) as Hs.
  destruct (Caching_client.perform code cfg T r s) as [[x|e| |u] s'];
    cbn [snd] in Hs; try exact Hs; rewrite IH; exact Hs.
Qed.

(** With a function to call and a size that fits, [allocate] returns the
    host's answer unless it is null. *)
Lemma caching_allocate_outcome (a : LuaCrtAllocator T) (w : world Mem) (n : Z) :
  0 <= n -> 0 < sizeof T -> n * sizeof T <= SIZE_MAX cfg ->
  l_alloc a <> nullptr ->
  fst (Caching.allocate code cfg T n (Frame a w)) =
  if answer code (l_alloc a) (l_ud a) nullptr 0 (n * sizeof T) w =? nullptr
  then Raise bad_alloc
  else Ret (answer code (l_alloc a) (l_ud a) nullptr 0 (n * sizeof T) w).
Proof.
  intros Hn Hs Hfit Ha.
  rewrite caching_allocate_eq, (proj2 (guard_spec cfg n (sizeof T) Hs) Hfit).
  rewrite (size_mul_exact cfg n (sizeof T) Hn Hs Hfit).
  apply Z.eqb_neq in Ha. rewrite Ha. cbn [andb negb]. cbv zeta.
  destruct (answer code _ _ _ _ _ w =? nullptr); reflexivity.
Qed.
End Serving.

(** C6: an allocator constructed from the handle [L1] caches the pair of
    [L1]'s host; [Validate(L2)] overwrites both cached fields with the pair
    of [L2]'s host and returns the object itself; and whatever requests
    follow, every call they make goes to the function and the opaque pointer
    of [L2]'s host, so to none of [L1]'s when the two pairs differ.  Each
    [allocate] that follows, at once or after any requests, does call: when
    [L2]'s function is not null and the size fits, it makes one call
    [(ud, nullptr, 0, n * sizeof(T))] to [L2]'s function with [L2]'s opaque
    pointer and returns that call's answer, or throws when the answer is
    null. *)
Theorem validate_rebinds_cache {Mem} (code : Z -> lua_Alloc Mem) (cfg : config)
    (T : ctype) (L1 L2 : lua_State) (g1 g2 : global_State) (w0 w : world Mem)
    (rs : list request) :
  globals w0 !! G L1 = Some g1 ->
  globals w !! G L2 = Some g2 ->
  let a1 : LuaCrtAllocator T := MkLuaCrtAllocator (frealloc g1) (ud g1) in
  let a2 : LuaCrtAllocator T := MkLuaCrtAllocator (frealloc g2) (ud g2) in
  let s := serve (Caching_client.perform code cfg T) rs (Frame a2 w) in
  Caching.construct T L1 w0 = (Ret a1, w0) /\
  Caching.Validate T L2 (Frame a1 w) = (Ret a2, Frame a2 w) /\
  (exists evs,
     calls (env s) = calls w ++ evs /\
     Forall (fun c => fn c = frealloc g2 /\ opaque c = ud g2) evs /\
     ((frealloc g2, ud g2) <> (frealloc g1, ud g1) ->
      Forall (fun c => (fn c, opaque c) <> (frealloc g1, ud g1)) evs)) /\
  self s = a2 /\
  (frealloc g2 <> nullptr ->
   forall n, 0 <= n -> 0 < sizeof T -> n * sizeof T <= SIZE_MAX cfg ->
     let r := Caching.allocate code cfg T n s in
     let p := answer code (frealloc g2) (ud g2) nullptr 0 (n * sizeof T) (env s) in
     calls (env (snd r)) =
       calls (env s) ++ [AllocCall (frealloc g2) (ud g2) nullptr 0 (n * sizeof T)] /\
     fst r = (if p =? nullptr then Raise bad_alloc else Ret p) /\
     self (snd r) = a2).
Proof.
  intros H1 H2 a1 a2 s.
  assert (Hself : self s = a2)
    by apply (caching_serve_keeps_self code cfg T rs (Frame a2 w)).
  split; [|split; [|split; [|split]]].
  - rewrite caching_construct_eq, H1. reflexivity.
  - rewrite caching_Validate_eq, H2. reflexivity.
  - destruct (caching_serve_calls code cfg T rs a2 w) as (evs & Hc & HF).
    exists evs. split; [exact Hc|]. split; [exact HF|].
    intros Hdiff. eapply Forall_impl; [exact HF|].
    intros c [Hf Hu]. cbn beta. rewrite Hf, Hu. exact Hdiff.
  - exact Hself.
  - intros Hf2 n Hn Hs Hfit.
    pose proof (caching_allocate_keeps_self code cfg T n s) as Hkeep.
    clearbody s. destruct s as [a' w']. cbn [self env] in *. subst a'.
    cbv zeta. split; [|split].
    + apply (caching_allocate_one_call code cfg T a2 w' n); assumption.
    + apply (caching_allocate_outcome code cfg T a2 w' n); assumption.
    + exact Hkeep.
Qed.

Lemma validate_rebinds_cache_witness :
  let s := serve (Caching_client.perform Demo.code Demo.lp64 Demo.int32)
             [Allocate 10; Deallocate 65536 10; Allocate 3]
             (Frame (MkLuaCrtAllocator 8192 9) Demo.boot) in
  let r := Caching.allocate Demo.code Demo.lp64 Demo.int32 5 s in
  Caching.construct Demo.int32 Demo.L1 Demo.boot
    = (Ret (MkLuaCrtAllocator 4096 7), Demo.boot) /\
  Caching.Validate Demo.int32 Demo.L2 (Frame (MkLuaCrtAllocator 4096 7) Demo.boot)
    = (Ret (MkLuaCrtAllocator 8192 9), Frame (MkLuaCrtAllocator 8192 9) Demo.boot) /\
  (exists evs,
     calls (env s) = [] ++ evs /\
     Forall (fun c => fn c = 8192 /\ opaque c = 9) evs /\
     ((8192, 9) <> (4096, 7) ->
      Forall (fun c => (fn c, opaque c) <> (4096, 7)) evs)) /\
  self s = MkLuaCrtAllocator 8192 9 /\
  calls (env (snd r)) = calls (env s) ++ [AllocCall 8192 9 nullptr 0 (5 * 4)] /\
  fst r = Ret 65588 /\
  self (snd r) = MkLuaCrtAllocator 8192 9.
Proof.
  destruct (validate_rebinds_cache Demo.code Demo.lp64 Demo.int32 Demo.L1 Demo.L2
              Demo.H1 Demo.H2 Demo.boot Demo.boot
              [Allocate 10; Deallocate 65536 10; Allocate 3])
    as (Hc & Hv & Hev & Hself & Hnext); [reflexivity | reflexivity |].
  destruct (Hnext ltac:(vm_compute; discriminate) 5) as (Hcalls & Hfst & Hkeep).
  - lia.
  - simpl. lia.
  - vm_compute. discriminate.
  - cbv zeta. split; [exact Hc|]. split; [exact Hv|]. split; [exact Hev|].
    split; [exact Hself|]. split; [exact Hcalls|]. split; [|exact Hkeep].
    etransitivity; [exact Hfst | reflexivity].
Defined.

Example validate_then_three_requests :
  calls (env (serve (Caching_client.perform Demo.code Demo.lp64 Demo.int32)
                [Allocate 10; Deallocate 65536 10; Allocate 3]
                (snd (Caching.Validate Demo.int32 Demo.L2
                        (Frame (MkLuaCrtAllocator 4096 7) Demo.boot)))))
  = [AllocCall 8192 9 nullptr 0 40;
     AllocCall 8192 9 65536 10 0;
     AllocCall 8192 9 nullptr 0 12].
Proof. vm_compute. reflexivity. Qed.

(** C7: the allocator over [global_State] reads the function and the opaque
    pointer from the record behind [_G] at each call.  Of two [allocate]
    calls on one unchanged object, between which the host overwrites the
    record, the first goes to the function and opaque pointer the record
    held before and the second to those it holds after; [deallocate] calls
    the function the record holds when it runs. *)
Theorem direct_reads_live_record {Mem} (code : Z -> lua_Alloc Mem) (cfg : config)
    (T : ctype) (i : InternalLuaCrtAllocator T) (g1 g2 : global_State)
    (w : world Mem) (n1 n2 : Z) :
  _G i <> nullptr ->
  globals w !! _G i = Some g1 ->
  frealloc g1 <> nullptr -> frealloc g2 <> nullptr ->
  0 < sizeof T ->
  0 <= n1 -> n1 * sizeof T <= SIZE_MAX cfg ->
  0 <= n2 -> n2 * sizeof T <= SIZE_MAX cfg ->
  let s1 := snd (Internal.allocate code cfg T n1 (Frame i w)) in
  let s2 := snd (Internal.allocate code cfg T n2 (store_global (_G i) g2 s1)) in
  self s1 = i /\ self s2 = i /\
  calls (env s2) =
    calls w ++ [AllocCall (frealloc g1) (ud g1) nullptr 0 (n1 * sizeof T);
                AllocCall (frealloc g2) (ud g2) nullptr 0 (n2 * sizeof T)] /\
  (forall p n,
     let sd := snd (Internal.deallocate code cfg T p n (store_global (_G i) g2 s1)) in
     exists os,
       calls (env sd) =
         calls w ++ [AllocCall (frealloc g1) (ud g1) nullptr 0 (n1 * sizeof T);
                     AllocCall (frealloc g2) (ud g2) p os 0]).
Proof.
  intros Hi Hlive Hf1 Hf2 Hs Hn1 Hfit1 Hn2 Hfit2.
  assert (Hg1 : (n1 <=? SIZE_MAX cfg / sizeof T) = true) by (apply guard_spec; assumption).
  assert (Hg2 : (n2 <=? SIZE_MAX cfg / sizeof T) = true) by (apply guard_spec; assumption).
  pose proof (size_mul_exact cfg n1 (sizeof T) Hn1 Hs Hfit1) as Hm1.
  pose proof (size_mul_exact cfg n2 (sizeof T) Hn2 Hs Hfit2) as Hm2.
  (* the first call *)
  assert (H1 : exists w1,
             snd (Internal.allocate code cfg T n1 (Frame i w)) = Frame i w1 /\
             calls w1 = calls w ++ [AllocCall (frealloc g1) (ud g1) nullptr 0 (n1 * sizeof T)]).
  { rewrite (internal_allocate_live code cfg T i w g1) by assumption.
    rewrite Hg1, Hm1. cbv zeta.
    destruct (answer code (frealloc g1) (ud g1) nullptr 0 (n1 * sizeof T) w =? nullptr);
      cbn [snd]; eexists; (split; [reflexivity|]).
    - reflexivity.
    - rewrite calls_reported. reflexivity. }
  destruct H1 as (w1 & Hs1 & Hc1).
  intros s1 s2. subst s1 s2. rewrite Hs1. unfold store_global. cbn [self env].
  set (w1' := World (<[_G i:=g2]> (globals w1)) (heap w1) (calls w1) (cout w1)).
  assert (Hlive' : globals w1' !! _G i = Some g2) by apply lookup_insert_eq.
  assert (Hc1' : calls w1' =
            calls w ++ [AllocCall (frealloc g1) (ud g1) nullptr 0 (n1 * sizeof T)])
    by exact Hc1.
  clearbody w1'.
  split; [reflexivity|].
  split; [apply (internal_allocate_keeps_self code cfg T n2 (Frame i w1'))|].
  split.
  - rewrite (internal_allocate_live code cfg T i w1' g2) by assumption.
    rewrite Hg2, Hm2. cbv zeta.
    destruct (answer code (frealloc g2) (ud g2) nullptr 0 (n2 * sizeof T) w1' =? nullptr);
      cbn [snd env]; rewrite ?calls_reported;
      unfold after_call, record_call; cbn [calls]; rewrite Hc1', <- app_assoc;
      reflexivity.
  - intros p n. cbv zeta. exists n.
    destruct (internal_deallocate_resolved code cfg T i g2 w1' p n) as [_ Hc];
      try assumption.
    rewrite Hc, Hc1', <- app_assoc. reflexivity.
Qed.

Lemma direct_reads_live_record_witness :
  let i := Internal.of_state Demo.int32 Demo.L1 in
  let s1 := snd (Internal.allocate Demo.code Demo.lp64 Demo.int32 10 (Frame i Demo.boot)) in
  let s2 := snd (Internal.allocate Demo.code Demo.lp64 Demo.int32 3
                   (store_global 16 Demo.H2 s1)) in
  self s1 = i /\ self s2 = i /\
  calls (env s2) =
    [] ++ [AllocCall 4096 7 nullptr 0 (10 * 4); AllocCall 8192 9 nullptr 0 (3 * 4)] /\
  (forall p n,
     let sd := snd (Internal.deallocate Demo.code Demo.lp64 Demo.int32 p n
                      (store_global 16 Demo.H2 s1)) in
     exists os,
       calls (env sd) =
         [] ++ [AllocCall 4096 7 nullptr 0 (10 * 4); AllocCall 8192 9 p os 0]).
Proof.
  apply (direct_reads_live_record Demo.code Demo.lp64 Demo.int32
           (Internal.of_state Demo.int32 Demo.L1) Demo.H1 Demo.H2 Demo.boot 10 3).
  - vm_compute. discriminate.
  - reflexivity.
  - vm_compute. discriminate.
  - vm_compute. discriminate.
  - simpl. lia.
  - lia.
  - vm_compute. discriminate.
  - lia.
  - vm_compute. discriminate.
Defined.

(** ** Comparison *)

(** C8: two allocators of the same kind always compare equal, whatever
    their element types and whatever they hold: [operator==] is [true] and
    [operator!=] is [false]. *)
Theorem allocators_always_equal (T U : ctype) :
  (forall (a : LuaCrtAllocator T) (b : LuaCrtAllocator U),
     Caching.eq a b = true /\ Caching.ne a b = false) /\
  (forall (i : InternalLuaCrtAllocator T) (j : InternalLuaCrtAllocator U),
     Internal.eq i j = true /\ Internal.ne i j = false).
Proof.
  split; intros x y; split; reflexivity.
Qed.

(** ** The object itself *)


(** * Further properties of the two allocators *)

(** ** The allocator over [global_State], in every state *)

Section Internal_general.
Context {Mem : Type}.
Variable code : Z -> lua_Alloc Mem.
Variable cfg : config.
Variable T : ctype.
Implicit Types (i : InternalLuaCrtAllocator T) (w : world Mem).

Lemma internal_allocate_eq i w (n : Z) :
  Internal.allocate code cfg T n (Frame i w) =
  if n <=? SIZE_MAX cfg / sizeof T then
    if _G i =? nullptr then (Raise bad_alloc, Frame i w)
    else
      match globals w !! _G i with
      | None => (Undef WildPointer, Frame i w)
      | Some g =>
          if frealloc g =? nullptr then (Undef NullCall, Frame i w)
          else
            let sz := size_mul cfg n (sizeof T) in
            let p := answer code (frealloc g) (ud g) nullptr 0 sz w in
            let w' := after_call code (frealloc g) (ud g) nullptr 0 sz w in
            if p =? nullptr then (Raise bad_alloc, Frame i w')
            else (Ret p, Frame i (reported cfg T p n true w'))
      end
  else (Raise bad_alloc, Frame i w).
Proof.
  unfold Internal.allocate, Internal.allocate_try.
  destruct (n <=? SIZE_MAX cfg / sizeof T); simpl; [|reflexivity].
  unfold bind at 1. unfold try_catch_all. unfold bind at 1.
  rewrite internal_realloc_eq.
  destruct (_G i =? nullptr); [reflexivity|].
  destruct (globals w !! _G i) as [g|]; [|reflexivity].
  destruct (frealloc g =? nullptr); [reflexivity|]. cbv zeta.
  destruct (answer code _ _ _ _ _ w =? nullptr); reflexivity.
Qed.

Lemma internal_deallocate_eq i w (p n : Z) :
  Internal.deallocate code cfg T p n (Frame i w) =
  let w0 := reported cfg T p n false w in
  if _G i =? nullptr then
    (if LUA_ALLOC_NOEXCEPT cfg then Terminated else Raise bad_alloc, Frame i w0)
  else
    match globals w !! _G i with
    | None => (Undef WildPointer, Frame i w0)
    | Some g =>
        if frealloc g =? nullptr then (Undef NullCall, Frame i w0)
        else (Ret tt, Frame i (after_call code (frealloc g) (ud g) p n 0 w0))
    end.
Proof.
  unfold Internal.deallocate, noexcept_body. unfold bind at 1.
  unfold report at 1. cbn [self env]. unfold bind at 1.
  rewrite internal_realloc_eq, globals_reported.
  destruct (_G i =? nullptr).
  - destruct (LUA_ALLOC_NOEXCEPT cfg); reflexivity.
  - destruct (globals w !! _G i) as [g|]; [|reflexivity].
    destruct (frealloc g =? nullptr); reflexivity.
Qed.
End Internal_general.

(** ** Runs from related states *)

Section Simulation.
Context {Mem O : Type}.
Variable R : world Mem -> world Mem -> Prop.

Lemma sim_ret {A} (x : A) : sim (O:=O) R (ret x) (ret x).
Proof. intros s s' H. split; [reflexivity | exact H]. Qed.

Lemma sim_throw {A} (e : exn) : sim (O:=O) (A:=A) R (throw e) (throw e).
Proof. intros s s' H. split; [reflexivity | exact H]. Qed.

Lemma sim_this : sim (O:=O) R this this.
Proof.
  intros s s' H. split; [|exact H]. cbn. f_equal. exact (proj1 H).
Qed.

Lemma sim_bind {A B} (m m' : M Mem O A) (k k' : A -> M Mem O B) :
  sim R m m' -> (forall x, sim R (k x) (k' x)) -> sim R (bind m k) (bind m' k').
Proof.
  intros Hm Hk s s' H. unfold bind. destruct (Hm s s' H) as [Ho Hr].
  destruct (m s) as [o s1], (m' s') as [o' s1']; cbn [fst snd] in *. subst o'.
  destruct o as [x|e| |u]; try (split; [reflexivity | exact Hr]).
  apply Hk. exact Hr.
Qed.

Lemma sim_try {A} (m m' h h' : M Mem O A) :
  sim R m m' -> sim R h h' -> sim R (try_catch_all m h) (try_catch_all m' h').
Proof.
  intros Hm Hh s s' H. unfold try_catch_all. destruct (Hm s s' H) as [Ho Hr].
  destruct (m s) as [o s1], (m' s') as [o' s1']; cbn [fst snd] in *. subst o'.
  destruct o as [x|e| |u]; try (split; [reflexivity | exact Hr]).
  apply Hh. exact Hr.
Qed.

Lemma sim_noexcept {A} (b : bool) (m m' : M Mem O A) :
  sim R m m' -> sim R (noexcept_body b m) (noexcept_body b m').
Proof.
  intros Hm s s' H. unfold noexcept_body. destruct (Hm s s' H) as [Ho Hr].
  destruct (m s) as [o s1], (m' s') as [o' s1']; cbn [fst snd] in *. subst o'.
  destruct o as [x|e| |u]; try (split; [reflexivity | exact Hr]).
  destruct b; (split; [reflexivity | exact Hr]).
Qed.

Lemma sim_if {A} (b : bool) (m1 m1' m2 m2' : M Mem O A) :
  sim R m1 m1' -> sim R m2 m2' ->
  sim R (if b then m1 else m2) (if b then m1' else m2').
Proof. destruct b; trivial. Qed.

(** A host call, when related worlds have the same heap and stay related
    as the same call is recorded in both. *)
Lemma sim_call (code : Z -> lua_Alloc Mem) (f u b os ns : Z) :
  (forall w w', R w w' -> heap w = heap w') ->
  (forall w w' c h, R w w' -> R (record_call c h w) (record_call c h w')) ->
  sim (O:=O) R (call_alloc code f u b os ns) (call_alloc code f u b os ns).
Proof.
  intros Hheap Hrec s s' [Hs Hw]. unfold call_alloc.
  destruct (f =? nullptr); [split; [reflexivity | split; assumption]|].
  cbn [fst snd]. unfold answer, after_call. rewrite (Hheap _ _ Hw).
  split; [reflexivity|]. split; [exact Hs|]. cbn [env]. apply Hrec. exact Hw.
Qed.

Lemma sim_deref (g : Z) :
  (forall w w', R w w' -> globals w = globals w') ->
  sim (O:=O) R (deref g) (deref g).
Proof.
  intros Hglob s s' [Hs Hw]. unfold deref. rewrite (Hglob _ _ Hw).
  destruct (globals (env s') !! g); (split; [reflexivity | split; assumption]).
Qed.

(** [report], whichever way each of the two builds was configured, when
    writing to [cout] keeps worlds related. *)
Lemma sim_report (cfg cfg' : config) (T : ctype) (p n : Z) (al : bool) :
  (forall w w' r, R w w' -> R (record_report r w) w') ->
  (forall w w' r, R w w' -> R w (record_report r w')) ->
  sim (O:=O) R (report cfg T p n al) (report cfg' T p n al).
Proof.
  intros Hl Hr s s' [Hs Hw]. unfold report, reported. cbn [fst snd].
  split; [reflexivity|]. split; [exact Hs|]. cbn [env].
  destruct (LUA_ALLOC_DEBUG cfg), (LUA_ALLOC_DEBUG cfg'); auto.
Qed.

(** [report] in one build on both sides. *)
Lemma sim_report_same (cfg : config) (T : ctype) (p n : Z) (al : bool) :
  (forall w w' r, R w w' -> R (record_report r w) (record_report r w')) ->
  sim (O:=O) R (report cfg T p n al) (report cfg T p n al).
Proof.
  intros Hrr s s' [Hs Hw]. unfold report, reported. cbn [fst snd].
  split; [reflexivity|]. split; [exact Hs|]. cbn [env].
  destruct (LUA_ALLOC_DEBUG cfg); auto.
Qed.
End Simulation.

Section Method_simulation.
Context {Mem : Type}.
Variable code : Z -> lua_Alloc Mem.
Variable R : world Mem -> world Mem -> Prop.
Variables cfg cfg' : config.
Variable T : ctype.

Hypothesis same_bits : size_bits cfg' = size_bits cfg.
Hypothesis same_cplusplus : cplusplus cfg' = cplusplus cfg.
Hypothesis R_heap : forall w w', R w w' -> heap w = heap w'.
Hypothesis R_call : forall w w' c h, R w w' -> R (record_call c h w) (record_call c h w').
Hypothesis R_report :
  forall O p n al, sim (O:=O) R (report cfg T p n al) (report cfg' T p n al).

Lemma SIZE_MAX_same : SIZE_MAX cfg' = SIZE_MAX cfg.
Proof. unfold SIZE_MAX. rewrite same_bits. reflexivity. Qed.

Lemma size_mul_same (a b : Z) : size_mul cfg' a b = size_mul cfg a b.
Proof. unfold size_mul. rewrite same_bits. reflexivity. Qed.

Lemma NOEXCEPT_same : LUA_ALLOC_NOEXCEPT cfg' = LUA_ALLOC_NOEXCEPT cfg.
Proof. unfold LUA_ALLOC_NOEXCEPT. rewrite same_cplusplus. reflexivity. Qed.

Lemma sim_caching_realloc (b os ns : Z) :
  sim R (Caching.realloc code T b os ns) (Caching.realloc code T b os ns).
Proof.
  unfold Caching.realloc. apply sim_bind; [apply sim_this|]. intros a.
  apply sim_if; [apply sim_throw | apply sim_call; assumption].
Qed.

Lemma sim_caching_allocate (n : Z) :
  sim R (Caching.allocate code cfg T n) (Caching.allocate code cfg' T n).
Proof.
  unfold Caching.allocate, Caching.allocate_try.
  rewrite SIZE_MAX_same, size_mul_same.
  apply sim_bind.
  - apply sim_try; [|apply sim_ret].
    apply sim_if; [|apply sim_ret].
    apply sim_bind; [apply sim_caching_realloc|]. intros p.
    apply sim_if; [apply sim_ret|].
    apply sim_bind; [apply R_report|]. intros _. apply sim_ret.
  - intros [p|]; [apply sim_ret | apply sim_throw].
Qed.

Lemma sim_caching_deallocate (p n : Z) :
  sim R (Caching.deallocate code cfg T p n) (Caching.deallocate code cfg' T p n).
Proof.
  unfold Caching.deallocate. rewrite NOEXCEPT_same. apply sim_noexcept.
  apply sim_bind; [apply R_report|]. intros _.
  apply sim_bind; [apply sim_caching_realloc|]. intros _. apply sim_ret.
Qed.

Hypothesis R_globals : forall w w', R w w' -> globals w = globals w'.

Lemma sim_internal_realloc (b os ns : Z) :
  sim R (Internal.realloc code T b os ns) (Internal.realloc code T b os ns).
Proof.
  unfold Internal.realloc. apply sim_bind; [apply sim_this|]. intros i.
  apply sim_if; [apply sim_throw|].
  apply sim_bind; [apply sim_deref; assumption|]. intros g.
  apply sim_call; assumption.
Qed.

Lemma sim_internal_allocate (n : Z) :
  sim R (Internal.allocate code cfg T n) (Internal.allocate code cfg' T n).
Proof.
  unfold Internal.allocate, Internal.allocate_try.
  rewrite SIZE_MAX_same, size_mul_same.
  apply sim_bind.
  - apply sim_try; [|apply sim_ret].
    apply sim_if; [|apply sim_ret].
    apply sim_bind; [apply sim_internal_realloc|]. intros p.
    apply sim_if; [apply sim_ret|].
    apply sim_bind; [apply R_report|]. intros _. apply sim_ret.
  - intros [p|]; [apply sim_ret | apply sim_throw].
Qed.

Lemma sim_internal_deallocate (p n : Z) :
  sim R (Internal.deallocate code cfg T p n) (Internal.deallocate code cfg' T p n).
Proof.
  unfold Internal.deallocate. rewrite NOEXCEPT_same. apply sim_noexcept.
  apply sim_bind; [apply R_report|]. intros _.
  apply sim_bind; [apply sim_internal_realloc|]. intros _. apply sim_ret.
Qed.
End Method_simulation.

Section World_relations.
Context {Mem : Type}.
Implicit Types w : world Mem.

Lemma same_but_cout_refl w : same_but_cout w w.
Proof. repeat split. Qed.

Lemma same_but_cout_call w w' (c : alloc_call) (h : Mem) :
  same_but_cout w w' -> same_but_cout (record_call c h w) (record_call c h w').
Proof.
  intros (Hg & Hh & Hc). unfold same_but_cout, record_call. cbn.
  rewrite Hc. auto.
Qed.

Lemma same_but_cout_report_l w w' (r : report_line) :
  same_but_cout w w' -> same_but_cout (record_report r w) w'.
Proof. intros H. exact H. Qed.

Lemma same_but_cout_report_r w w' (r : report_line) :
  same_but_cout w w' -> same_but_cout w (record_report r w').
Proof. intros H. exact H. Qed.

Lemma same_but_globals_call w w' (c : alloc_call) (h : Mem) :
  same_but_globals w w' -> same_but_globals (record_call c h w) (record_call c h w').
Proof.
  intros (Hh & Hc & Ho). unfold same_but_globals, record_call. cbn.
  rewrite Hc. auto.
Qed.

Lemma same_but_globals_report w w' (r : report_line) :
  same_but_globals w w' -> same_but_globals (record_report r w) (record_report r w').
Proof.
  intros (Hh & Hc & Ho). unfold same_but_globals, record_report. cbn.
  rewrite Ho. auto.
Qed.
End World_relations.

(** ** Diagnostics *)

(** X5: whether [LUA_ALLOC_DEBUG] is defined changes nothing but what is
    written to [cout]: from one state, [allocate] and [deallocate] of both
    allocators end the same way, with the same object, host records, host
    memory and calls to the host, in the two builds. *)
Theorem diagnostics_change_cout_only {Mem} (code : Z -> lua_Alloc Mem) (cfg : config)
    (b : bool) (T : ctype) (p n : Z) :
  (forall s : frame Mem (LuaCrtAllocator T),
     let r := Caching.allocate code cfg T n s in
     let r' := Caching.allocate code (with_debug b cfg) T n s in
     fst r = fst r' /\ related same_but_cout (snd r) (snd r')) /\
  (forall s : frame Mem (LuaCrtAllocator T),
     let r := Caching.deallocate code cfg T p n s in
     let r' := Caching.deallocate code (with_debug b cfg) T p n s in
     fst r = fst r' /\ related same_but_cout (snd r) (snd r')) /\
  (forall s : frame Mem (InternalLuaCrtAllocator T),
     let r := Internal.allocate code cfg T n s in
     let r' := Internal.allocate code (with_debug b cfg) T n s in
     fst r = fst r' /\ related same_but_cout (snd r) (snd r')) /\
  (forall s : frame Mem (InternalLuaCrtAllocator T),
     let r := Internal.deallocate code cfg T p n s in
     let r' := Internal.deallocate code (with_debug b cfg) T p n s in
     fst r = fst r' /\ related same_but_cout (snd r) (snd r')).
Proof.
  assert (Hrep : forall O q k al,
             sim (Mem:=Mem) (O:=O) same_but_cout (report cfg T q k al)
               (report (with_debug b cfg) T q k al)).
  { intros. apply sim_report; intros; assumption. }
  assert (Hheap : forall w w' : world Mem, same_but_cout w w' -> heap w = heap w')
    by (intros w w' H; apply H).
  assert (Hglob : forall w w' : world Mem, same_but_cout w w' -> globals w = globals w')
    by (intros w w' H; apply H).
  assert (Hcall : forall (w w' : world Mem) c h,
             same_but_cout w w' -> same_but_cout (record_call c h w) (record_call c h w'))
    by (intros; apply same_but_cout_call; assumption).
  assert (Hid : forall O (s : frame Mem O), related same_but_cout s s)
    by (intros; split; [reflexivity | apply same_but_cout_refl]).
  split; [|split; [|split]]; intros s; cbv zeta.
  - apply (sim_caching_allocate code same_but_cout cfg (with_debug b cfg) T
             eq_refl Hheap Hcall Hrep n s s (Hid _ s)).
  - apply (sim_caching_deallocate code same_but_cout cfg (with_debug b cfg) T
             eq_refl Hheap Hcall Hrep p n s s (Hid _ s)).
  - apply (sim_internal_allocate code same_but_cout cfg (with_debug b cfg) T
             eq_refl Hheap Hcall Hrep Hglob n s s (Hid _ s)).
  - apply (sim_internal_deallocate code same_but_cout cfg (with_debug b cfg) T
             eq_refl Hheap Hcall Hrep Hglob p n s s (Hid _ s)).
Qed.

Section Cout.
Context {Mem : Type}.
Variable code : Z -> lua_Alloc Mem.
Variable cfg : config.
Variable T : ctype.
Implicit Types w : world Mem.

Lemma cout_after_call (f u b os ns : Z) w :
  cout (after_call code f u b os ns w) = cout w.
Proof. reflexivity. Qed.

Lemma globals_after_call (f u b os ns : Z) w :
  globals (after_call code f u b os ns w) = globals w.
Proof. reflexivity. Qed.

Lemma cout_reported (p n : Z) (al : bool) w :
  cout (reported cfg T p n al w) =
  if LUA_ALLOC_DEBUG cfg then cout w ++ [ReportLine al (size_mul cfg (sizeof T) n) p]
  else cout w.
Proof. unfold reported. destruct (LUA_ALLOC_DEBUG cfg); reflexivity. Qed.
End Cout.

(** X6: what [report] leaves on [cout].  [allocate] writes one line, tagged
    as an allocation, with the byte count [sizeof(T) * n] and the address
    returned, exactly when it returns and [LUA_ALLOC_DEBUG] is defined; an
    [allocate] that throws writes nothing.  [deallocate] writes its line,
    tagged as a deallocation, before anything else, so also when it does
    not return. *)
Theorem report_lines {Mem} (code : Z -> lua_Alloc Mem) (cfg : config) (T : ctype)
    (p n : Z) (w : world Mem) :
  let alloc_line q :=
    if LUA_ALLOC_DEBUG cfg
    then cout w ++ [ReportLine true (size_mul cfg (sizeof T) n) q] else cout w in
  let dealloc_line :=
    if LUA_ALLOC_DEBUG cfg
    then cout w ++ [ReportLine false (size_mul cfg (sizeof T) n) p] else cout w in
  (forall a : LuaCrtAllocator T,
     let r := Caching.allocate code cfg T n (Frame a w) in
     cout (env (snd r)) = match fst r with Ret q => alloc_line q | _ => cout w end) /\
  (forall a : LuaCrtAllocator T,
     cout (env (snd (Caching.deallocate code cfg T p n (Frame a w)))) = dealloc_line) /\
  (forall i : InternalLuaCrtAllocator T,
     let r := Internal.allocate code cfg T n (Frame i w) in
     cout (env (snd r)) = match fst r with Ret q => alloc_line q | _ => cout w end) /\
  (forall i : InternalLuaCrtAllocator T,
     cout (env (snd (Internal.deallocate code cfg T p n (Frame i w)))) = dealloc_line).
Proof.
  cbv zeta. split; [|split; [|split]].
  - intros a. rewrite caching_allocate_eq.
    destruct ((n <=? SIZE_MAX cfg / sizeof T) && negb (l_alloc a =? nullptr));
      [|reflexivity].
    cbv zeta. destruct (answer code _ _ _ _ _ w =? nullptr); cbn [fst snd env].
    + reflexivity.
    + rewrite cout_reported. reflexivity.
  - intros a. rewrite caching_deallocate_eq. cbv zeta.
    destruct (l_alloc a =? nullptr); cbn [snd env]; rewrite ?cout_after_call;
      apply cout_reported.
  - intros i. rewrite internal_allocate_eq.
    destruct (n <=? SIZE_MAX cfg / sizeof T); [|reflexivity].
    destruct (_G i =? nullptr); [reflexivity|].
    destruct (globals w !! _G i) as [g|]; [|reflexivity].
    destruct (frealloc g =? nullptr); [reflexivity|].
    cbv zeta. destruct (answer code _ _ _ _ _ w =? nullptr); cbn [fst snd env].
    + reflexivity.
    + rewrite cout_reported. reflexivity.
  - intros i. rewrite internal_deallocate_eq. cbv zeta.
    destruct (_G i =? nullptr); [apply cout_reported|].
    destruct (globals w !! _G i) as [g|]; [|apply cout_reported].
    destruct (frealloc g =? nullptr); cbn [snd env]; rewrite ?cout_after_call;
      apply cout_reported.
Qed.

(** ** The cache and the host *)

Section Caching_globals.
Context {Mem : Type}.
Variable code : Z -> lua_Alloc Mem.
Variable cfg : config.
Variable T : ctype.
Implicit Types (a : LuaCrtAllocator T) (w : world Mem).

Lemma caching_allocate_globals a w (n : Z) :
  globals (env (snd (Caching.allocate code cfg T n (Frame a w)))) = globals w.
Proof.
  rewrite caching_allocate_eq.
  destruct ((n <=? SIZE_MAX cfg / sizeof T) && negb (l_alloc a =? nullptr));
    [|reflexivity].
  cbv zeta. destruct (answer code _ _ _ _ _ w =? nullptr); cbn [snd env];
    rewrite ?globals_reported; reflexivity.
Qed.

Lemma caching_deallocate_globals a w (p n : Z) :
  globals (env (snd (Caching.deallocate code cfg T p n (Frame a w)))) = globals w.
Proof.
  rewrite caching_deallocate_eq. cbv zeta.
  destruct (l_alloc a =? nullptr); cbn [snd env];
    rewrite ?globals_after_call, globals_reported; reflexivity.
Qed.
End Caching_globals.

(** X7: the caching allocator never looks at the host's records.  Whatever
    the host has made of them since the cache was filled, [allocate] and
    [deallocate] end the same way, with the same object, the same calls to
    the host (still to the cached function), the same host memory and the
    same output; and they leave the records as they found them. *)
Theorem caching_ignores_host_records {Mem} (code : Z -> lua_Alloc Mem) (cfg : config)
    (T : ctype) (a : LuaCrtAllocator T) (w : world Mem)
    (gs : gmap Z global_State) (p n : Z) :
  let w' := World gs (heap w) (calls w) (cout w) in
  (let r := Caching.allocate code cfg T n (Frame a w) in
   let r' := Caching.allocate code cfg T n (Frame a w') in
   fst r = fst r' /\ related same_but_globals (snd r) (snd r') /\
   globals (env (snd r)) = globals w /\ globals (env (snd r')) = gs) /\
  (let r := Caching.deallocate code cfg T p n (Frame a w) in
   let r' := Caching.deallocate code cfg T p n (Frame a w') in
   fst r = fst r' /\ related same_but_globals (snd r) (snd r') /\
   globals (env (snd r)) = globals w /\ globals (env (snd r')) = gs).
Proof.
  intros w'.
  assert (Hrel : related same_but_globals (Frame a w) (Frame a w'))
    by (repeat split).
  assert (Hrep : forall O q k al,
             sim (Mem:=Mem) (O:=O) same_but_globals (report cfg T q k al)
               (report cfg T q k al)).
  { intros. apply sim_report_same. intros. apply same_but_globals_report. assumption. }
  assert (Hheap : forall u u' : world Mem, same_but_globals u u' -> heap u = heap u')
    by (intros u u' H; apply H).
  assert (Hcall : forall (u u' : world Mem) c h,
             same_but_globals u u' ->
             same_but_globals (record_call c h u) (record_call c h u'))
    by (intros; apply same_but_globals_call; assumption).
  split; cbv zeta.
  - destruct (sim_caching_allocate code same_but_globals cfg cfg T
                eq_refl Hheap Hcall Hrep n _ _ Hrel) as [Ho Hr].
    split; [exact Ho|]. split; [exact Hr|].
    split; [apply caching_allocate_globals|].
    apply (caching_allocate_globals code cfg T a w' n).
  - destruct (sim_caching_deallocate code same_but_globals cfg cfg T
                eq_refl Hheap Hcall Hrep p n _ _ Hrel) as [Ho Hr].
    split; [exact Ho|]. split; [exact Hr|].
    split; [apply caching_deallocate_globals|].
    apply (caching_deallocate_globals code cfg T a w' p n).
Qed.

(** ** Objects with nothing to call *)

(** X1: an allocator made by the default constructor has nothing to call:
    [allocate] and [realloc] of either kind throw [std::bad_alloc] and
    leave the whole state as it was, whatever the request and whatever the
    host records hold. *)
Theorem default_allocators_throw {Mem} (code : Z -> lua_Alloc Mem) (cfg : config)
    (T : ctype) (w : world Mem) (n b os ns : Z) :
  Caching.allocate code cfg T n (Frame (Caching.init T) w)
    = (Raise bad_alloc, Frame (Caching.init T) w) /\
  Caching.realloc code T b os ns (Frame (Caching.init T) w)
    = (Raise bad_alloc, Frame (Caching.init T) w) /\
  Internal.allocate code cfg T n (Frame (Internal.init T) w)
    = (Raise bad_alloc, Frame (Internal.init T) w) /\
  Internal.realloc code T b os ns (Frame (Internal.init T) w)
    = (Raise bad_alloc, Frame (Internal.init T) w).
Proof.
  split; [|split; [|split]].
  - rewrite caching_allocate_eq. cbn [Caching.init l_alloc].
    rewrite Z.eqb_refl. cbn [negb]. rewrite andb_false_r. reflexivity.
  - rewrite caching_realloc_eq. cbn [Caching.init l_alloc].
    rewrite Z.eqb_refl. reflexivity.
  - apply internal_allocate_null. reflexivity.
  - apply internal_realloc_null. reflexivity.
Qed.

(** X2: [deallocate] of the allocator over [global_State] with a null [_G]
    calls nothing and reads no host record: the test in [realloc] throws,
    which ends the program in [std::terminate] where [deallocate] is
    [noexcept] and leaves [deallocate] as [std::bad_alloc] where it is not. *)
Theorem direct_deallocate_without_record {Mem} (code : Z -> lua_Alloc Mem)
    (cfg : config) (T : ctype) (i : InternalLuaCrtAllocator T) (w : world Mem)
    (p n : Z) :
  _G i = nullptr ->
  let r := Internal.deallocate code cfg T p n (Frame i w) in
  fst r = (if LUA_ALLOC_NOEXCEPT cfg then Terminated else Raise bad_alloc) /\
  self (snd r) = i /\
  calls (env (snd r)) = calls w /\
  heap (env (snd r)) = heap w /\
  globals (env (snd r)) = globals w.
Proof.
  intros Hi r. subst r. rewrite internal_deallocate_eq. cbv zeta.
  apply Z.eqb_eq in Hi. rewrite Hi. cbn [fst snd self env].
  rewrite calls_reported, heap_reported, globals_reported. repeat split.
Qed.

Lemma direct_deallocate_without_record_witness :
  let r := Internal.deallocate Demo.code Demo.lp64 Demo.int32 65536 10
             (Frame (Internal.init Demo.int32) Demo.boot) in
  fst r = (if LUA_ALLOC_NOEXCEPT Demo.lp64 then Terminated else Raise bad_alloc) /\
  self (snd r) = Internal.init Demo.int32 /\
  calls (env (snd r)) = calls Demo.boot /\
  heap (env (snd r)) = heap Demo.boot /\
  globals (env (snd r)) = globals Demo.boot.
Proof.
  apply (direct_deallocate_without_record Demo.code Demo.lp64 Demo.int32
           (Internal.init Demo.int32) Demo.boot 65536 10).
  reflexivity.
Defined.

(** X9: the allocator over [global_State] tests [_G] only.  Behind a live
    record whose function pointer is null, [realloc], [deallocate] and an
    [allocate] that passes the size guard call through the null pointer:
    they neither throw [std::bad_alloc] nor reach the host, and the [catch]
    of [allocate] does not apply.  The caching allocator holding the same
    null pointer throws [std::bad_alloc] instead. *)
Theorem direct_calls_null_function {Mem} (code : Z -> lua_Alloc Mem)
    (cfg : config) (T : ctype) (i : InternalLuaCrtAllocator T) (g : global_State)
    (w : world Mem) (p n : Z) :
  _G i <> nullptr -> globals w !! _G i = Some g -> frealloc g = nullptr ->
  (forall b os ns,
     Internal.realloc code T b os ns (Frame i w) = (Undef NullCall, Frame i w)) /\
  Internal.allocate code cfg T n (Frame i w) =
    (if n <=? SIZE_MAX cfg / sizeof T then Undef NullCall else Raise bad_alloc,
     Frame i w) /\
  (let r := Internal.deallocate code cfg T p n (Frame i w) in
   fst r = Undef NullCall /\ calls (env (snd r)) = calls w /\
   heap (env (snd r)) = heap w) /\
  Caching.allocate code cfg T n (Frame (MkLuaCrtAllocator (frealloc g) (ud g)) w)
    = (Raise bad_alloc, Frame (MkLuaCrtAllocator (frealloc g) (ud g)) w).
Proof.
  intros Hi Hlive Hf. apply Z.eqb_neq in Hi. apply Z.eqb_eq in Hf.
  split; [|split; [|split]].
  - intros b os ns. rewrite internal_realloc_eq, Hi, Hlive, Hf. reflexivity.
  - rewrite internal_allocate_eq, Hi, Hlive, Hf.
    destruct (n <=? SIZE_MAX cfg / sizeof T); reflexivity.
  - cbv zeta. rewrite internal_deallocate_eq. cbv zeta. rewrite Hi, Hlive, Hf.
    cbn [fst snd env]. rewrite calls_reported, heap_reported. repeat split.
  - rewrite caching_allocate_eq. cbn [l_alloc]. rewrite Hf. cbn [negb].
    rewrite andb_false_r. reflexivity.
Qed.

Lemma direct_calls_null_function_witness :
  let w := World (<[16 := GlobalState nullptr 5]> ∅) 65536 [] [] in
  let i := Internal.of_global Demo.int32 16 in
  (forall b os ns,
     Internal.realloc Demo.code Demo.int32 b os ns (Frame i w)
       = (Undef NullCall, Frame i w)) /\
  Internal.allocate Demo.code Demo.lp64 Demo.int32 10 (Frame i w) =
    (if 10 <=? SIZE_MAX Demo.lp64 / sizeof Demo.int32
     then Undef NullCall else Raise bad_alloc, Frame i w) /\
  (let r := Internal.deallocate Demo.code Demo.lp64 Demo.int32 65536 10 (Frame i w) in
   fst r = Undef NullCall /\ calls (env (snd r)) = calls w /\
   heap (env (snd r)) = heap w) /\
  Caching.allocate Demo.code Demo.lp64 Demo.int32 10
    (Frame (MkLuaCrtAllocator (frealloc (GlobalState nullptr 5))
              (ud (GlobalState nullptr 5))) w)
    = (Raise bad_alloc,
       Frame (MkLuaCrtAllocator (frealloc (GlobalState nullptr 5))
                (ud (GlobalState nullptr 5))) w).
Proof.
  apply (direct_calls_null_function Demo.code Demo.lp64 Demo.int32
           (Internal.of_global Demo.int32 16) (GlobalState nullptr 5)
           (World (<[16 := GlobalState nullptr 5]> ∅) 65536 [] []) 65536 10).
  - vm_compute. discriminate.
  - reflexivity.
  - reflexivity.
Defined.

(** ** [realloc] *)

(** X3: [realloc] with something to call forwards its three arguments as
    they are in one call and returns the host's answer as a value, a null
    answer too: it is [allocate], not [realloc], that turns a null answer
    into [std::bad_alloc]. *)
Theorem realloc_forwards {Mem} (code : Z -> lua_Alloc Mem) (T : ctype)
    (w : world Mem) (b os ns : Z) :
  (forall a : LuaCrtAllocator T,
     l_alloc a <> nullptr ->
     let r := Caching.realloc code T b os ns (Frame a w) in
     let h := code (l_alloc a) (l_ud a) b os ns (heap w) in
     fst r = Ret (fst h) /\
     snd r = Frame a (World (globals w) (snd h)
                        (calls w ++ [AllocCall (l_alloc a) (l_ud a) b os ns])
                        (cout w))) /\
  (forall (i : InternalLuaCrtAllocator T) (g : global_State),
     _G i <> nullptr -> globals w !! _G i = Some g -> frealloc g <> nullptr ->
     let r := Internal.realloc code T b os ns (Frame i w) in
     let h := code (frealloc g) (ud g) b os ns (heap w) in
     fst r = Ret (fst h) /\
     snd r = Frame i (World (globals w) (snd h)
                        (calls w ++ [AllocCall (frealloc g) (ud g) b os ns])
                        (cout w))).
Proof.
  split.
  - intros a Ha. cbv zeta. rewrite caching_realloc_eq.
    apply Z.eqb_neq in Ha. rewrite Ha. split; reflexivity.
  - intros i g Hi Hlive Hf. cbv zeta.
    rewrite (internal_realloc_live code T i w g) by assumption.
    split; reflexivity.
Qed.

(** A resize request that the host cannot satisfy comes back as null. *)
Lemma realloc_forwards_witness :
  Caching.realloc Demo.code Demo.int32 65536 40 80
    (Frame (MkLuaCrtAllocator 12288 0) Demo.boot)
  = (Ret nullptr,
     Frame (MkLuaCrtAllocator 12288 0)
       (World (globals Demo.boot) 65536 [AllocCall 12288 0 65536 40 80] [])).
Proof.
  destruct (realloc_forwards Demo.code Demo.int32 Demo.boot 65536 40 80) as [Hc _].
  destruct (Hc (MkLuaCrtAllocator 12288 0)) as [Hr Hs]; [vm_compute; discriminate|].
  apply injective_projections; [exact Hr | exact Hs].
Defined.

(** ** What reaches the host *)

(** X4: the host never sees a wrapped size.  A call of [allocate(n)] makes
    no call to the host or one, and the one it makes asks for a fresh block
    (null block, old size 0) of exactly [n * sizeof(T)] bytes, a product
    that fits in a [size_t]. *)
Theorem allocate_call_shape {Mem} (code : Z -> lua_Alloc Mem) (cfg : config)
    (T : ctype) (n : Z) :
  0 <= n -> 0 < sizeof T ->
  (forall (a : LuaCrtAllocator T) (w : world Mem),
     let w1 := env (snd (Caching.allocate code cfg T n (Frame a w))) in
     calls w1 = calls w \/
     (n * sizeof T <= SIZE_MAX cfg /\
      calls w1 =
        calls w ++ [AllocCall (l_alloc a) (l_ud a) nullptr 0 (n * sizeof T)])) /\
  (forall (i : InternalLuaCrtAllocator T) (w : world Mem),
     let w1 := env (snd (Internal.allocate code cfg T n (Frame i w))) in
     calls w1 = calls w \/
     (exists g,
        globals w !! _G i = Some g /\
        n * sizeof T <= SIZE_MAX cfg /\
        calls w1 =
          calls w ++ [AllocCall (frealloc g) (ud g) nullptr 0 (n * sizeof T)])).
Proof.
  intros Hn Hs.
  destruct (n <=? SIZE_MAX cfg / sizeof T) eqn:Hg.
  - pose proof (proj1 (guard_spec cfg n (sizeof T) Hs) Hg) as Hfit.
    pose proof (size_mul_exact cfg n (sizeof T) Hn Hs Hfit) as Hmul.
    split.
    + intros a w. cbv zeta. rewrite caching_allocate_eq, Hg, Hmul.
      destruct (l_alloc a =? nullptr); cbn [andb negb]; [left; reflexivity|].
      right. split; [exact Hfit|].
      destruct (answer code _ _ _ _ _ w =? nullptr); cbn [snd env];
        rewrite ?calls_reported; reflexivity.
    + intros i w. cbv zeta. rewrite internal_allocate_eq, Hg, Hmul.
      destruct (_G i =? nullptr); [left; reflexivity|].
      destruct (globals w !! _G i) as [g|]; [|left; reflexivity].
      destruct (frealloc g =? nullptr); [left; reflexivity|].
      right. exists g. split; [reflexivity|]. split; [exact Hfit|].
      cbv zeta. destruct (answer code _ _ _ _ _ w =? nullptr); cbn [snd env];
        rewrite ?calls_reported; reflexivity.
  - split.
    + intros a w. cbv zeta. rewrite caching_allocate_eq, Hg. left. reflexivity.
    + intros i w. cbv zeta. rewrite internal_allocate_guard by assumption.
      left. reflexivity.
Qed.

Lemma allocate_call_shape_witness :
  (let w1 := env (snd (Caching.allocate Demo.code Demo.lp64 Demo.int32 10
                         (Frame (MkLuaCrtAllocator 12288 0) Demo.boot))) in
   calls w1 = calls Demo.boot \/
   (10 * sizeof Demo.int32 <= SIZE_MAX Demo.lp64 /\
    calls w1 = calls Demo.boot ++
               [AllocCall 12288 0 nullptr 0 (10 * sizeof Demo.int32)])) /\
  (let w1 := env (snd (Internal.allocate Demo.code Demo.lp64 Demo.int32 10
                         (Frame (Internal.of_state Demo.int32 Demo.L1) Demo.boot))) in
   calls w1 = calls Demo.boot \/
   (exists g,
      globals Demo.boot !! 16 = Some g /\
      10 * sizeof Demo.int32 <= SIZE_MAX Demo.lp64 /\
      calls w1 = calls Demo.boot ++
                 [AllocCall (frealloc g) (ud g) nullptr 0 (10 * sizeof Demo.int32)])).
Proof.
  destruct (allocate_call_shape Demo.code Demo.lp64 Demo.int32 10) as [Hc Hi].
  - lia.
  - simpl. lia.
  - split.
    + apply (Hc (MkLuaCrtAllocator 12288 0) Demo.boot).
    + apply (Hi (Internal.of_state Demo.int32 Demo.L1) Demo.boot).
Defined.

(** X11: [allocate(n)] and then [deallocate(p, n)] of the block [p] it
    returned.  When the size fits and the host function answers with a
    block, the pair returns normally, leaves the object as it was and makes
    two calls to the same function with the same opaque pointer: the
    request for [n * sizeof(T)] bytes, then one with new size 0 for that
    same block [p]. *)
Theorem allocate_then_deallocate {Mem} (code : Z -> lua_Alloc Mem) (cfg : config)
    (T : ctype) (n : Z) :
  0 <= n -> 0 < sizeof T -> n * sizeof T <= SIZE_MAX cfg ->
  (forall (a : LuaCrtAllocator T) (w : world Mem),
     l_alloc a <> nullptr ->
     answer code (l_alloc a) (l_ud a) nullptr 0 (n * sizeof T) w <> nullptr ->
     exists p,
       let r1 := Caching.allocate code cfg T n (Frame a w) in
       let r2 := Caching.deallocate code cfg T p n (snd r1) in
       fst r1 = Ret p /\ p <> nullptr /\ fst r2 = Ret tt /\ self (snd r2) = a /\
       exists os,
         calls (env (snd r2)) =
           calls w ++ [AllocCall (l_alloc a) (l_ud a) nullptr 0 (n * sizeof T);
                       AllocCall (l_alloc a) (l_ud a) p os 0]) /\
  (forall (i : InternalLuaCrtAllocator T) (g : global_State) (w : world Mem),
     _G i <> nullptr -> globals w !! _G i = Some g -> frealloc g <> nullptr ->
     answer code (frealloc g) (ud g) nullptr 0 (n * sizeof T) w <> nullptr ->
     exists p,
       let r1 := Internal.allocate code cfg T n (Frame i w) in
       let r2 := Internal.deallocate code cfg T p n (snd r1) in
       fst r1 = Ret p /\ p <> nullptr /\ fst r2 = Ret tt /\ self (snd r2) = i /\
       exists os,
         calls (env (snd r2)) =
           calls w ++ [AllocCall (frealloc g) (ud g) nullptr 0 (n * sizeof T);
                       AllocCall (frealloc g) (ud g) p os 0]).
Proof.
  intros Hn Hs Hfit.
  assert (Hg : (n <=? SIZE_MAX cfg / sizeof T) = true) by (apply guard_spec; assumption).
  pose proof (size_mul_exact cfg n (sizeof T) Hn Hs Hfit) as Hmul.
  split.
  - intros a w Ha Hp.
    exists (answer code (l_alloc a) (l_ud a) nullptr 0 (n * sizeof T) w). cbv zeta.
    rewrite caching_allocate_eq, Hg, Hmul.
    pose proof Ha as Ha'. apply Z.eqb_neq in Ha'. rewrite Ha'. cbn [andb negb].
    pose proof Hp as Hp'. apply Z.eqb_neq in Hp'. rewrite Hp'. cbn [fst snd].
    split; [reflexivity|]. split; [exact Hp|].
    match goal with
    | |- context [Caching.deallocate code cfg T ?p n (Frame a ?w1)] =>
        destruct (caching_deallocate_resolved code cfg T a w1 p n Ha) as [Hr Hc];
        pose proof (caching_deallocate_keeps_self code cfg T p n (Frame a w1)) as Hself
    end.
    split; [exact Hr|]. split; [exact Hself|]. exists n.
    rewrite Hc, calls_reported. unfold after_call, record_call. cbn [calls].
    rewrite <- app_assoc. reflexivity.
  - intros i g w Hi Hlive Hf Hp.
    exists (answer code (frealloc g) (ud g) nullptr 0 (n * sizeof T) w). cbv zeta.
    rewrite (internal_allocate_live code cfg T i w g) by assumption.
    rewrite Hg, Hmul. cbv zeta.
    pose proof Hp as Hp'. apply Z.eqb_neq in Hp'. rewrite Hp'. cbn [fst snd].
    split; [reflexivity|]. split; [exact Hp|].
    match goal with
    | |- context [Internal.deallocate code cfg T ?p n (Frame i ?w1)] =>
        destruct (internal_deallocate_resolved code cfg T i g w1 p n Hi) as [Hr Hc];
        [rewrite globals_reported; exact Hlive | exact Hf |];
        pose proof (internal_deallocate_keeps_self code cfg T p n (Frame i w1)) as Hself
    end.
    split; [exact Hr|]. split; [exact Hself|]. exists n.
    rewrite Hc, calls_reported. unfold after_call, record_call. cbn [calls].
    rewrite <- app_assoc. reflexivity.
Qed.

Lemma allocate_then_deallocate_witness :
  (exists p,
     let r1 := Caching.allocate Demo.code Demo.lp64 Demo.int32 10
                 (Frame (MkLuaCrtAllocator 4096 7) Demo.boot) in
     let r2 := Caching.deallocate Demo.code Demo.lp64 Demo.int32 p 10 (snd r1) in
     fst r1 = Ret p /\ p <> nullptr /\ fst r2 = Ret tt /\
     self (snd r2) = MkLuaCrtAllocator 4096 7 /\
     exists os,
       calls (env (snd r2)) =
         [] ++ [AllocCall 4096 7 nullptr 0 (10 * 4); AllocCall 4096 7 p os 0]) /\
  (exists p,
     let r1 := Internal.allocate Demo.code Demo.lp64 Demo.int32 10
                 (Frame (Internal.of_state Demo.int32 Demo.L2) Demo.boot) in
     let r2 := Internal.deallocate Demo.code Demo.lp64 Demo.int32 p 10 (snd r1) in
     fst r1 = Ret p /\ p <> nullptr /\ fst r2 = Ret tt /\
     self (snd r2) = Internal.of_state Demo.int32 Demo.L2 /\
     exists os,
       calls (env (snd r2)) =
         [] ++ [AllocCall 8192 9 nullptr 0 (10 * 4); AllocCall 8192 9 p os 0]).
Proof.
  destruct (allocate_then_deallocate Demo.code Demo.lp64 Demo.int32 10) as [Hc Hi].
  - lia.
  - simpl. lia.
  - vm_compute. discriminate.
  - split.
    + apply (Hc (MkLuaCrtAllocator 4096 7) Demo.boot); vm_compute; discriminate.
    + apply (Hi (Internal.of_state Demo.int32 Demo.L2) Demo.H2 Demo.boot);
        try reflexivity; vm_compute; discriminate.
Defined.

(** ** The two allocators side by side *)

(** X8: while the cache is fresh the two allocators cannot be told apart.
    In a world where the handle [L] leads to a live record with a function
    to call, the caching allocator constructed from [L] and the allocator
    over [global_State] constructed from [L] end [allocate] the same way
    and leave the same world, and so for [deallocate]. *)
Theorem fresh_cache_agrees_with_direct {Mem} (code : Z -> lua_Alloc Mem)
    (cfg : config) (T : ctype) (L : lua_State) (g : global_State) (w : world Mem)
    (p n : Z) :
  G L <> nullptr -> globals w !! G L = Some g -> frealloc g <> nullptr ->
  let i := Internal.of_state T L in
  exists a : LuaCrtAllocator T,
    Caching.construct T L w = (Ret a, w) /\
    (let rc := Caching.allocate code cfg T n (Frame a w) in
     let ri := Internal.allocate code cfg T n (Frame i w) in
     fst rc = fst ri /\ env (snd rc) = env (snd ri)) /\
    (let rc := Caching.deallocate code cfg T p n (Frame a w) in
     let ri := Internal.deallocate code cfg T p n (Frame i w) in
     fst rc = fst ri /\ env (snd rc) = env (snd ri)).
Proof.
  intros HL Hlive Hf i.
  exists (MkLuaCrtAllocator (frealloc g) (ud g)).
  assert (Hi : _G i <> nullptr) by exact HL.
  assert (Hlive' : globals w !! _G i = Some g) by exact Hlive.
  pose proof Hf as Hf'. apply Z.eqb_neq in Hf'.
  split; [|split]; cbv zeta.
  - rewrite caching_construct_eq, Hlive. reflexivity.
  - rewrite caching_allocate_eq.
    rewrite (internal_allocate_live code cfg T i w g) by assumption.
    cbn [l_alloc l_ud]. rewrite Hf'. cbn [negb]. rewrite andb_true_r.
    destruct (n <=? SIZE_MAX cfg / sizeof T); [|split; reflexivity].
    cbv zeta. destruct (answer code _ _ _ _ _ w =? nullptr); split; reflexivity.
  - rewrite caching_deallocate_eq.
    rewrite (internal_deallocate_live code cfg T i w g) by assumption.
    cbv zeta. cbn [l_alloc l_ud]. rewrite Hf'. split; reflexivity.
Qed.

Lemma fresh_cache_agrees_with_direct_witness :
  let i := Internal.of_state Demo.int32 Demo.L1 in
  exists a : LuaCrtAllocator Demo.int32,
    Caching.construct Demo.int32 Demo.L1 Demo.boot = (Ret a, Demo.boot) /\
    (let rc := Caching.allocate Demo.code Demo.lp64 Demo.int32 10 (Frame a Demo.boot) in
     let ri := Internal.allocate Demo.code Demo.lp64 Demo.int32 10 (Frame i Demo.boot) in
     fst rc = fst ri /\ env (snd rc) = env (snd ri)) /\
    (let rc := Caching.deallocate Demo.code Demo.lp64 Demo.int32 65536 10
                 (Frame a Demo.boot) in
     let ri := Internal.deallocate Demo.code Demo.lp64 Demo.int32 65536 10
                 (Frame i Demo.boot) in
     fst rc = fst ri /\ env (snd rc) = env (snd ri)).
Proof.
  apply (fresh_cache_agrees_with_direct Demo.code Demo.lp64 Demo.int32 Demo.L1
           Demo.H1 Demo.boot 65536 10).
  - vm_compute. discriminate.
  - reflexivity.
  - vm_compute. discriminate.
Defined.

(** ** Conversion between element types *)

(** X10: the converting constructors carry the resolution over unchanged.
    Converting to another element type and back gives the object one
    started from; every call the converted caching allocator makes goes to
    the function and opaque pointer of the original; and the converted
    allocator over [global_State] reads the record the original reads. *)
Theorem rebind_keeps_resolution {Mem} (code : Z -> lua_Alloc Mem) (cfg : config)
    (T U : ctype) (w : world Mem) (p n : Z) :
  (forall a : LuaCrtAllocator T,
     Caching.rebind (T:=T) (Caching.rebind (T:=U) a) = a /\
     extends_with (l_alloc a) (l_ud a) w
       (env (snd (Caching.allocate code cfg U n (Frame (Caching.rebind a) w)))) /\
     extends_with (l_alloc a) (l_ud a) w
       (env (snd (Caching.deallocate code cfg U p n (Frame (Caching.rebind a) w))))) /\
  (forall i : InternalLuaCrtAllocator T,
     Internal.rebind (T:=T) (Internal.rebind (T:=U) i) = i /\
     let w1 := env (snd (Internal.allocate code cfg U n
                           (Frame (Internal.rebind i) w))) in
     calls w1 = calls w \/
     exists g,
       globals w !! _G i = Some g /\
       extends_with (frealloc g) (ud g) w w1).
Proof.
  split.
  - intros a. split; [destruct a; reflexivity|]. split.
    + apply (caching_allocate_calls code cfg U (Caching.rebind a) w n).
    + apply (caching_deallocate_calls code cfg U (Caching.rebind a) w p n).
  - intros i. split; [destruct i; reflexivity|]. cbv zeta.
    rewrite internal_allocate_eq. cbn [Internal.rebind _G].
    destruct (n <=? SIZE_MAX cfg / sizeof U); [|left; reflexivity].
    destruct (_G i =? nullptr); [left; reflexivity|].
    destruct (globals w !! _G i) as [g|]; [|left; reflexivity].
    destruct (frealloc g =? nullptr); [left; reflexivity|].
    right. exists g. split; [reflexivity|]. cbv zeta.
    destruct (answer code _ _ _ _ _ w =? nullptr); cbn [snd env].
    + apply extends_with_call.
    + apply extends_with_reported, extends_with_call.
Qed.

(** ** [Validate] *)

(** X12: [Validate] makes no call to the host and leaves the world as it
    was; what it stores does not depend on what the cache held before; and
    once it has returned, running it again from the same handle changes
    nothing more. *)
Theorem validate_is_silent_and_idempotent {Mem} (T : ctype) (L : lua_State)
    (a a' : LuaCrtAllocator T) (w : world Mem) :
  let r := Caching.Validate T L (Frame a w) in
  env (snd r) = w /\
  fst r = fst (Caching.Validate T L (Frame a' w)) /\
  (forall b, fst r = Ret b ->
     snd r = Frame b w /\
     snd (Caching.Validate T L (Frame a' w)) = Frame b w /\
     Caching.Validate T L (snd r) = r).
Proof.
  cbv zeta. rewrite !caching_Validate_eq.
  destruct (globals w !! G L) as [g|] eqn:Hg; cbn [fst snd env].
  - split; [reflexivity|]. split; [reflexivity|].
    intros b [= <-]. split; [reflexivity|]. split; [reflexivity|].
    rewrite caching_Validate_eq, Hg. reflexivity.
  - split; [reflexivity|]. split; [reflexivity|]. intros b Hb. discriminate Hb.
Qed.

(** ** A cache gone stale *)

(** X13: the cache goes stale and [Validate] refreshes it.  After the host
    has replaced the function and opaque pointer in its record, the caching
    allocator constructed before still calls the function it cached, while
    the allocator over [global_State] calls the new one; once [Validate]
    has run on the same handle the caching allocator calls the new one
    too. *)
Theorem stale_cache_until_validate {Mem} (code : Z -> lua_Alloc Mem) (cfg : config)
    (T : ctype) (L : lua_State) (g1 g2 : global_State) (w : world Mem) (n : Z) :
  G L <> nullptr -> globals w !! G L = Some g1 ->
  frealloc g1 <> nullptr -> frealloc g2 <> nullptr ->
  0 <= n -> 0 < sizeof T -> n * sizeof T <= SIZE_MAX cfg ->
  let a : LuaCrtAllocator T := MkLuaCrtAllocator (frealloc g1) (ud g1) in
  let i := Internal.of_state T L in
  let w2 := env (store_global (G L) g2 (Frame a w)) in
  let request f u := AllocCall f u nullptr 0 (n * sizeof T) in
  Caching.construct T L w = (Ret a, w) /\
  calls (env (snd (Caching.allocate code cfg T n (Frame a w2)))) =
    calls w ++ [request (frealloc g1) (ud g1)] /\
  calls (env (snd (Internal.allocate code cfg T n (Frame i w2)))) =
    calls w ++ [request (frealloc g2) (ud g2)] /\
  calls (env (snd (Caching.allocate code cfg T n
                     (snd (Caching.Validate T L (Frame a w2)))))) =
    calls w ++ [request (frealloc g2) (ud g2)].
Proof.
  intros HL Hlive Hf1 Hf2 Hn Hs Hfit a i w2 request.
  assert (Hlive2 : globals w2 !! G L = Some g2) by apply lookup_insert_eq.
  assert (Hcalls : calls w2 = calls w) by reflexivity.
  clearbody w2. subst request. cbv beta.
  split; [|split; [|split]].
  - rewrite caching_construct_eq, Hlive. reflexivity.
  - rewrite (caching_allocate_one_call code cfg T a w2 n) by assumption.
    rewrite Hcalls. reflexivity.
  - rewrite (internal_allocate_one_call code cfg T i g2 w2 n) by assumption.
    rewrite Hcalls. reflexivity.
  - rewrite caching_Validate_eq, Hlive2. cbn [snd].
    rewrite caching_allocate_one_call by assumption.
    rewrite Hcalls. reflexivity.
Qed.

Lemma stale_cache_until_validate_witness :
  let a : LuaCrtAllocator Demo.int32 := MkLuaCrtAllocator 4096 7 in
  let i := Internal.of_state Demo.int32 Demo.L1 in
  let w2 := env (store_global 16 Demo.H2 (Frame a Demo.boot)) in
  let request f u := AllocCall f u nullptr 0 (10 * 4) in
  Caching.construct Demo.int32 Demo.L1 Demo.boot = (Ret a, Demo.boot) /\
  calls (env (snd (Caching.allocate Demo.code Demo.lp64 Demo.int32 10 (Frame a w2)))) =
    [] ++ [request 4096 7] /\
  calls (env (snd (Internal.allocate Demo.code Demo.lp64 Demo.int32 10 (Frame i w2)))) =
    [] ++ [request 8192 9] /\
  calls (env (snd (Caching.allocate Demo.code Demo.lp64 Demo.int32 10
                     (snd (Caching.Validate Demo.int32 Demo.L1 (Frame a w2)))))) =
    [] ++ [request 8192 9].
Proof.
  apply (stale_cache_until_validate Demo.code Demo.lp64 Demo.int32 Demo.L1
           Demo.H1 Demo.H2 Demo.boot 10).
  - vm_compute. discriminate.
  - reflexivity.
  - vm_compute. discriminate.
  - vm_compute. discriminate.
  - lia.
  - simpl. lia.
  - vm_compute. discriminate.
Defined.
